(** * Verification of [tools/render_crash_zone_assets.py]

    A shallow embedding of the crash-zone asset renderer: the legend
    resolver ([hex_to_rgb], [to_rgba], [normalise_legend]), the grid
    rasteriser ([render_asset_grid]), the exporter ([export_asset]) and the
    driver ([main]), followed by the properties stated about them.

    Modelling conventions.
    - A Python [str] is a [string]; a character is a code point below 256.
    - A Python [int] is a [Z]; a Python [float] is a binary64 [float].
    - A raised exception is a value of [exception]; a computation that may
      raise returns a [result].
    - Output (stdout lines, saved files, created directories) is a trace of
      [event]s threaded through the [io] monad. *)

From Stdlib Require Import ZArith List String Ascii Floats Lia Bool.
From stdpp Require Import base list strings gmap sorting pretty.

Local Open Scope string_scope.
Local Open Scope Z_scope.

(** ** Exceptions and results *)

Inductive exception : Type :=
| ValueError (msg : string)
| KeyError (msg : string)
| TypeError (msg : string)
| OverflowError (msg : string)
| IndexError (msg : string)
| OSError (msg : string).

Inductive result (A : Type) : Type :=
| Ok (a : A)
| Raise (e : exception).
Arguments Ok {A} a.
Arguments Raise {A} e.

Definition rbind {A B} (r : result A) (k : A -> result B) : result B :=
  match r with
  | Ok a => k a
  | Raise e => Raise e
  end.

#[global] Instance result_bind : MBind result := fun A B k r => rbind r k.
#[global] Instance result_ret : MRet result := @Ok.

(** ** Python strings *)

Module Py.

Definition code (c : ascii) : Z := Z.of_N (N_of_ascii c).

(** [s.lstrip(chars)]: drop the longest prefix made of characters of [chars]. *)
Fixpoint mem (c : ascii) (chars : string) : bool :=
  match chars with
  | EmptyString => false
  | String d rest => if Ascii.eqb c d then true else mem c rest
  end.

Fixpoint lstrip (chars s : string) : string :=
  match s with
  | EmptyString => EmptyString
  | String c rest => if mem c chars then lstrip chars rest else s
  end.

(** [len(s)] *)
Definition len (s : string) : Z := Z.of_nat (String.length s).

Definition len_list {A} (l : list A) : Z := Z.of_nat (List.length l).

(** [s[i : i + n]] for in-range [i]. *)
Definition slice (i n : nat) (s : string) : string := substring i n s.

(** *** [repr(s)] for code points below 256 *)

Definition hex_digit (n : Z) : ascii :=
  if n <? 10 then ascii_of_N (Z.to_N (48 + n)) else ascii_of_N (Z.to_N (87 + n)).

(** A code point at or above 128 is printable unless it is a C1 control,
    the no-break space or the soft hyphen. *)
Definition printable (c : ascii) : bool :=
  let n := code c in
  if n <? 32 then false
  else if n <? 127 then true
  else if n <? 161 then false
  else negb (n =? 173).

Definition backslash : ascii := "\"%char.
Definition quote : ascii := "'"%char.
Definition dquote : ascii := ascii_of_N 34.

Definition repr_char (q c : ascii) : string :=
  if Ascii.eqb c q || Ascii.eqb c backslash then String backslash (String c EmptyString)
  else if code c =? 9 then String backslash "t"
  else if code c =? 10 then String backslash "n"
  else if code c =? 13 then String backslash "r"
  else if printable c then String c EmptyString
  else String backslash
         (String "x" (String (hex_digit (code c / 16))
                        (String (hex_digit (code c mod 16)) EmptyString))).

Fixpoint repr_body (q : ascii) (s : string) : string :=
  match s with
  | EmptyString => EmptyString
  | String c rest => repr_char q c +:+ repr_body q rest
  end.

(** Single quotes, unless the text has a single quote and no double quote. *)
Definition repr (s : string) : string :=
  let q := if mem quote s && negb (mem dquote s) then dquote else quote in
  String q (repr_body q s +:+ String q EmptyString).

(** [sep.join(items)] *)
Fixpoint join (sep : string) (items : list string) : string :=
  match items with
  | [] => EmptyString
  | [x] => x
  | x :: rest => x +:+ sep +:+ join sep rest
  end.

(** *** [int(s, 16)] *)

(** Whitespace that [int] skips: tab to carriage return, space, and the two
    code points above 127 that count as spaces (next line, no-break space). *)
Definition is_space (c : ascii) : bool :=
  let n := code c in
  ((9 <=? n) && (n <=? 13)) || (n =? 32) || (n =? 133) || (n =? 160).

Definition digit16 (c : ascii) : option Z :=
  let n := code c in
  if (48 <=? n) && (n <=? 57) then Some (n - 48)
  else if (97 <=? n) && (n <=? 102) then Some (n - 87)
  else if (65 <=? n) && (n <=? 70) then Some (n - 55)
  else None.

Fixpoint skip_spaces (s : string) : string :=
  match s with
  | String c rest => if is_space c then skip_spaces rest else s
  | EmptyString => s
  end.

(** Scan digits and single interior underscores. [prev] tells whether the
    previous character was an underscore, [seen] counts the digits so far.
    Returns the value and the unread rest, or [None] on a doubled or
    trailing underscore or when no digit was read. *)
Fixpoint scan16 (s : string) (acc : Z) (prev : bool) (seen : nat)
  : option (Z * string) :=
  match s with
  | EmptyString =>
      if prev then None else match seen with O => None | _ => Some (acc, s) end
  | String c rest =>
      if Ascii.eqb c "_" then
        if prev then None else scan16 rest acc true seen
      else
        match digit16 c with
        | Some d => scan16 rest (16 * acc + d) false (S seen)
        | None =>
            if prev then None
            else match seen with O => None | _ => Some (acc, s) end
        end
  end.

Definition strip_prefix16 (s : string) : string :=
  match s with
  | String "0" (String x rest) =>
      if Ascii.eqb x "x" || Ascii.eqb x "X" then
        match rest with
        | String "_" rest' => rest'
        | _ => rest
        end
      else s
  | _ => s
  end.

Definition parse16 (s : string) : option Z :=
  let s1 := skip_spaces s in
  let '(neg, s2) :=
    match s1 with
    | String "+" r => (false, r)
    | String "-" r => (true, r)
    | _ => (false, s1)
    end in
  let s3 := strip_prefix16 s2 in
  match s3 with
  | String "_" _ => None
  | _ =>
      match scan16 s3 0 false 0 with
      | Some (v, rest) =>
          match skip_spaces rest with
          | EmptyString => Some (if neg then - v else v)
          | _ => None
          end
      | None => None
      end
  end.

Definition int16 (s : string) : result Z :=
  match parse16 s with
  | Some v => Ok v
  | None => Raise (ValueError ("invalid literal for int() with base 16: " +:+ repr s))
  end.

(** [str(n)] for an integer: its decimal numeral. *)
Definition str (n : Z) : string := pretty n.

(** [int(x)] for a float: truncation toward zero. *)
Definition int_of_float (x : float) : result Z :=
  match Prim2SF x with
  | S754_nan => Raise (ValueError "cannot convert float NaN to integer")
  | S754_infinity _ => Raise (OverflowError "cannot convert float infinity to integer")
  | S754_zero _ => Ok 0
  | S754_finite s m e => Ok (cond_Zopp s (Z.shiftl (Zpos m) e))
  end.

End Py.

(** [sorted(xs)] on strings (by code point) and on integers. *)
Definition sorted_str (xs : list string) : list string := merge_sort String.le xs.
Definition sorted_int (xs : list Z) : list Z := merge_sort Z.le xs.

(** [max(a, *rest)]: with a single integer argument Python tries to iterate
    over it. *)
Definition py_max (args : list Z) : result Z :=
  match args with
  | [] => Raise (TypeError "max expected at least 1 argument, got 0")
  | [_] => Raise (TypeError "'int' object is not iterable")
  | a :: rest => Ok (fold_left Z.max rest a)
  end.

(** ** Data model *)

Definition RGB : Type := Z * Z * Z.
Definition RGBA : Type := Z * Z * Z * Z.

Definition LegendEntry : Type := option string * float.

(** [legend] lists the items of the mapping in iteration order. *)
Record AssetDefinition : Type := {
  slug : string;
  grid : list string;
  legend : list (string * LegendEntry)
}.

Definition TRANSPARENT_PIXEL : RGBA := (0, 0, 0, 0).

#[global] Instance RGBA_eq_dec : EqDecision RGBA.
Proof. solve_decision. Defined.

(** ** Legend resolver *)

Definition hex_to_rgb (hex_colour : string) : result RGB :=
  let colour := Py.lstrip "#" hex_colour in
  if bool_decide (Py.len colour ≠ 6) then
    Raise (ValueError ("Unsupported colour value: " +:+ Py.repr hex_colour))
  else
    r ← Py.int16 (Py.slice 0 2 colour);
    g ← Py.int16 (Py.slice 2 2 colour);
    b ← Py.int16 (Py.slice 4 2 colour);
    Ok (r, g, b).

Definition to_rgba (hex_colour : option string) (opacity : float) : result RGBA :=
  match hex_colour with
  | None => Ok TRANSPARENT_PIXEL
  | Some hex_colour =>
      if (opacity <=? 0)%float then Ok TRANSPARENT_PIXEL
      else
        '(r, g, b) ← hex_to_rgb hex_colour;
        alpha ← Py.int_of_float (opacity * 255 + 0.5)%float;
        let alpha := Z.max 0 (Z.min alpha 255) in
        Ok (r, g, b, alpha)
  end.

Fixpoint normalise_legend (legend : list (string * LegendEntry))
  : result (list (string * RGBA)) :=
  match legend with
  | [] => Ok []
  | (symbol, (hex_colour, opacity)) :: rest =>
      pixel ← to_rgba hex_colour opacity;
      rest' ← normalise_legend rest;
      Ok ((symbol, pixel) :: rest')
  end.

(** [legend[symbol]] on the resolved legend; the keys of a mapping are
    distinct, so the first match is the entry. *)
Fixpoint legend_get (legend : list (string * RGBA)) (symbol : string) : option RGBA :=
  match legend with
  | [] => None
  | (k, v) :: rest => if String.eqb k symbol then Some v else legend_get rest symbol
  end.

(** ** Images

    An RGBA raster is a list of rows of pixels of four 8-bit channels: a
    colour given to [Image.new] or to [putpixel] is stored with each channel
    clipped to [0..255]. *)

Definition clip8 (v : Z) : Z := if v <=? 0 then 0 else if v <? 256 then v else 255.

Definition clip_pixel (value : RGBA) : RGBA :=
  let '(r, g, b, a) := value in (clip8 r, clip8 g, clip8 b, clip8 a).

Record Image : Type := {
  xsize : Z;
  ysize : Z;
  rows : list (list RGBA)
}.

Definition Image_new (size : Z * Z) (colour : RGBA) : result Image :=
  let '(w, h) := size in
  if (w <? 0) || (h <? 0) then Raise (ValueError "Width and height must be >= 0")
  else Ok {| xsize := w; ysize := h;
             rows := replicate (Z.to_nat h) (replicate (Z.to_nat w) (clip_pixel colour)) |}.

Definition getpixel (im : Image) (xy : Z * Z) : option RGBA :=
  let '(x, y) := xy in
  if (x <? 0) || (y <? 0) then None
  else row ← rows im !! Z.to_nat y; row !! Z.to_nat x.

(** A negative coordinate counts from the far edge; anything still outside
    the raster raises. *)
Definition putpixel (im : Image) (xy : Z * Z) (value : RGBA) : result Image :=
  let '(x, y) := xy in
  let x := if x <? 0 then xsize im + x else x in
  let y := if y <? 0 then ysize im + y else y in
  if (x <? 0) || (xsize im <=? x) || (y <? 0) || (ysize im <=? y) then
    Raise (IndexError "image index out of range")
  else
    Ok {| xsize := xsize im; ysize := ysize im;
          rows := alter (fun row => <[Z.to_nat x := clip_pixel value]> row) (Z.to_nat y)
                        (rows im) |}.

(** ** Grid rasteriser *)

Definition unknown_symbol (symbol slug : string) (legend : list (string * RGBA)) : exception :=
  let available := Py.join ", " (sorted_str (map fst legend)) in
  KeyError ("Symbol " +:+ Py.repr symbol +:+ " in " +:+ slug +:+ " is not defined. "
            +:+ "Known symbols: " +:+ available).

(** The inner loop: [for column_index, symbol in enumerate(row)]. *)
Fixpoint paint_row (legend : list (string * RGBA)) (slug : string)
    (horizontal_offset y column_index : Z) (row : string) (canvas : Image)
  : result Image :=
  match row with
  | EmptyString => Ok canvas
  | String c rest =>
      let symbol := String c EmptyString in
      match legend_get legend symbol with
      | None => Raise (unknown_symbol symbol slug legend)
      | Some pixel =>
          canvas' ← (if decide (pixel = TRANSPARENT_PIXEL) then Ok canvas
                     else putpixel canvas (horizontal_offset + column_index, y) pixel);
          paint_row legend slug horizontal_offset y (column_index + 1) rest canvas'
      end
  end.

(** The outer loop: [for row_index, row in enumerate(asset.grid)]. *)
Fixpoint paint_rows (legend : list (string * RGBA)) (slug : string)
    (base_dimension vertical_offset row_index : Z) (grid : list string) (canvas : Image)
  : result Image :=
  match grid with
  | [] => Ok canvas
  | row :: rest =>
      let horizontal_offset := (base_dimension - Py.len row) / 2 in
      canvas' ← paint_row legend slug horizontal_offset (vertical_offset + row_index) 0 row canvas;
      paint_rows legend slug base_dimension vertical_offset (row_index + 1) rest canvas'
  end.

Definition render_asset_grid (asset : AssetDefinition) : result Image :=
  legend ← normalise_legend (legend asset);
  base_dimension ← py_max (Py.len_list (grid asset) :: map Py.len (grid asset));
  canvas ← Image_new (base_dimension, base_dimension) TRANSPARENT_PIXEL;
  let vertical_offset := (base_dimension - Py.len_list (grid asset)) / 2 in
  paint_rows legend (slug asset) base_dimension vertical_offset 0 (grid asset) canvas.

(** ** Asset catalogue

    A decimal opacity denotes the nearest binary64 value, as it does in the
    source. *)

#[local] Set Warnings "-inexact-float".

Definition ASSETS : list AssetDefinition := [
  {| slug := "mind-fragment-core";
     grid := [
       "..aaAAaa..";
       ".aBBBBBBa.";
       "ABBBBBBBBA";
       "ABBCDDCBBA";
       "ABBCEEDBBA";
       "ABBCEEDBBA";
       "ABBCDDCBBA";
       "ABBBBBBBBA";
       ".aBBBBBBa.";
       "..aaAAaa.." ];
     legend := [
       (".", (None, 0.0%float));
       ("A", (Some "#1F2A44", 1.0%float));
       ("B", (Some "#3C6BA6", 1.0%float));
       ("C", (Some "#8D4FD3", 1.0%float));
       ("D", (Some "#F38B2A", 1.0%float));
       ("E", (Some "#5A8453", 1.0%float));
       ("a", (Some "#1F2A44", 0.3%float)) ] |};
  {| slug := "worker-m0-drone";
     grid := [
       "...AA....";
       "..ABBBA..";
       ".ABCCCBa.";
       "ABCDDDBBA";
       "BBCD1DBCB";
       "ABCDDDBBA";
       ".ABCCCBa.";
       "..ABBBA..";
       "...AA...." ];
     legend := [
       (".", (None, 0.0%float));
       ("A", (Some "#1F2A44", 1.0%float));
       ("B", (Some "#3C6BA6", 1.0%float));
       ("C", (Some "#8D4FD3", 1.0%float));
       ("D", (Some "#5A8453", 1.0%float));
       ("a", (Some "#3C6BA6", 0.4%float));
       ("1", (Some "#F38B2A", 1.0%float)) ] |};
  {| slug := "nestled-sporeling";
     grid := [
       "....aaa....";
       "...aBBBaa..";
       "..aBEEEBAa.";
       ".aBEEfEEBa.";
       ".aBEFFFEBa.";
       ".aBEEfEEBa.";
       "..aBEEEBAa.";
       "...aBBBaa..";
       "....aaa...." ];
     legend := [
       (".", (None, 0.0%float));
       ("A", (Some "#1F2A44", 1.0%float));
       ("B", (Some "#5A8453", 1.0%float));
       ("E", (Some "#8D4FD3", 1.0%float));
       ("F", (Some "#F38B2A", 0.6%float));
       ("a", (Some "#1F2A44", 0.25%float));
       ("f", (Some "#F38B2A", 0.3%float)) ] |}
].

Definition DEFAULT_SIZES : list Z := [48; 96].

(** ** Exporter and driver

    The file system, [pathlib] and the resampler are the environment: paths
    are an abstract type with the join [output_dir / name], [str(path)] and
    [path.parents] (the nearest parent first), [resize] is the
    nearest-neighbour resampler, [is_dir] tells which directories exist
    when the run starts, and [save_error] and [mkdir_error] tell which
    writes and which directory creations the environment refuses. *)

Inductive event (Path : Type) : Type :=
| Print (line : string)
| Save (path : Path) (image : Image)
| Mkdir (path : Path).  (* a directory that did not exist is created *)
Arguments Print {Path} line.
Arguments Save {Path} path image.
Arguments Mkdir {Path} path.

(** What a call returns: a function that falls off its end returns [None]. *)
Inductive pyobject (Path : Type) : Type :=
| PyNone
| PyList (items : list (Path * bool)).
Arguments PyNone {Path}.
Arguments PyList {Path} items.

(** A computation with output: the events it emitted, in order, and its
    result. Events emitted before an exception stay. *)
Definition io (Path A : Type) : Type := list (event Path) * result A.

Definition io_bind {Path A B} (m : io Path A) (k : A -> io Path B) : io Path B :=
  match m with
  | (t, Ok a) => let '(t', r) := k a in ((t ++ t')%list, r)
  | (t, Raise e) => (t, Raise e)
  end.

#[global] Instance io_mbind {Path} : MBind (io Path) := fun A B k m => io_bind m k.
#[global] Instance io_mret {Path} : MRet (io Path) := fun A a => ([], Ok a).

Definition lift {Path A} (r : result A) : io Path A := ([], r).

Definition print {Path} (line : string) : io Path unit := ([Print line], Ok tt).

(** [for x in xs: body(x)] *)
Fixpoint for_each {Path A} (xs : list A) (body : A -> io Path unit) : io Path unit :=
  match xs with
  | [] => mret tt
  | x :: rest => _ ← body x; for_each rest body
  end.

Record Namespace (Path : Type) : Type := {
  output_dir : Path;
  sizes : list Z;
  include_base : bool;
  dry_run : bool
}.
Arguments output_dir {Path} _.
Arguments sizes {Path} _.
Arguments include_base {Path} _.
Arguments dry_run {Path} _.

Section Exporter.
Context {Path : Type}.
Variable truediv : Path -> string -> Path.
Variable path_str : Path -> string.
Variable resize : Image -> Z * Z -> Image.
Variable save_error : Path -> option exception.
Variable parents : Path -> list Path.
Variable is_dir : Path -> bool.
Variable mkdir_error : Path -> option exception.

Definition save (image : Image) (path : Path) : io Path unit :=
  match save_error path with
  | Some e => ([], Raise e)
  | None => ([Save path image], Ok tt)
  end.

(** [os.mkdir(path)], for a path that is not a directory yet. *)
Definition os_mkdir (path : Path) : io Path unit :=
  match mkdir_error path with
  | Some e => ([], Raise e)
  | None => ([Mkdir path], Ok tt)
  end.

(** [path.mkdir(parents=True, exist_ok=True)], on the chain of the path
    and its parents: a directory that exists is left as it is and nothing
    above it is looked at; otherwise the missing parents are created
    first, and then the directory itself. *)
Fixpoint mkdir_parents (chain : list Path) : io Path unit :=
  match chain with
  | [] => mret tt
  | path :: above =>
      if is_dir path then mret tt
      else _ ← mkdir_parents above; os_mkdir path
  end.

Definition mkdir (path : Path) : io Path unit := mkdir_parents (path :: parents path).

(** [sorted({size for size in sizes if size > 0})] *)
Definition export_sizes (sizes : list Z) : list Z :=
  sorted_int (elements (list_to_set (filter (fun size => 0 < size) sizes) : gset Z)).

Definition export_asset (asset : AssetDefinition) (sizes : list Z)
    (output_dir : Path) (include_base dry_run : bool) : io Path (pyobject Path) :=
  base_image ← lift (render_asset_grid asset);
  _ ← (if include_base then
         let base_name := slug asset +:+ "_base.png" in
         let base_path := truediv output_dir base_name in
         if dry_run then print ("[dry-run] " +:+ path_str base_path)
         else
           _ ← save base_image base_path;
           print ("Saved " +:+ path_str base_path)
       else mret tt);
  _ ← for_each (export_sizes sizes) (fun size =>
         let filename := slug asset +:+ "_" +:+ Py.str size +:+ ".png" in
         let target_path := truediv output_dir filename in
         if dry_run then print ("[dry-run] " +:+ path_str target_path)
         else
           let scaled := resize base_image (size, size) in
           _ ← save scaled target_path;
           print ("Saved " +:+ path_str target_path));
  mret PyNone.

(** [main], with the parsed arguments and the catalogue as parameters. *)
Definition main (ASSETS : list AssetDefinition) (args : Namespace Path)
  : io Path (pyobject Path) :=
  _ ← (if negb (dry_run args) then mkdir (output_dir args) else mret tt);
  _ ← for_each ASSETS (fun asset =>
         _ ← export_asset asset (sizes args) (output_dir args)
               (include_base args) (dry_run args);
         mret tt);
  mret PyNone.
End Exporter.

(** ** Vocabulary of the statements *)

(** A raster is well formed when its rows match its declared size. *)
Definition Image_wf (im : Image) : Prop :=
  0 <= xsize im /\ 0 <= ysize im /\
  length (rows im) = Z.to_nat (ysize im) /\
  Forall (fun row => length row = Z.to_nat (xsize im)) (rows im).

(** [row[i]], when [i] is an index of [row]. *)
Definition symbol_at (row : string) (i : Z) : option ascii :=
  if i <? 0 then None else String.get (Z.to_nat i) row.

(** The length of the longest row. *)
Definition max_row_length (grid : list string) : Z :=
  foldr Z.max 0 (map Py.len grid).

(** The first character of a row, or of a grid read row by row, that the
    resolved legend does not define. *)
Fixpoint first_unknown (legend : list (string * RGBA)) (row : string) : option ascii :=
  match row with
  | EmptyString => None
  | String c rest =>
      match legend_get legend (String c EmptyString) with
      | None => Some c
      | Some _ => first_unknown legend rest
      end
  end.

Fixpoint first_unknown_grid (legend : list (string * RGBA)) (grid : list string)
  : option ascii :=
  match grid with
  | [] => None
  | row :: rest =>
      match first_unknown legend row with
      | Some c => Some c
      | None => first_unknown_grid legend rest
      end
  end.

(** The resolved pixel of the cell that a row starting at column [start],
    or a block of rows starting at line [ystart], puts over a position. *)
Definition row_overlay (legend : list (string * RGBA)) (start : Z) (row : string)
    (x : Z) : option RGBA :=
  c ← symbol_at row (x - start); legend_get legend (String c EmptyString).

Definition grid_overlay (legend : list (string * RGBA)) (side ystart : Z)
    (grid : list string) (x y : Z) : option RGBA :=
  if y <? ystart then None
  else row ← grid !! Z.to_nat (y - ystart);
       row_overlay legend ((side - Py.len row) / 2) row x.

(** Painting over an old pixel: a transparent cell leaves it as it is, any
    other is stored clipped. *)
Definition painted (cell old : option RGBA) : option RGBA :=
  match cell with
  | Some p => if decide (p = TRANSPARENT_PIXEL) then old else Some (clip_pixel p)
  | None => old
  end.

(** A pixel that an 8-bit raster stores as it is. *)
Definition in_gamut (value : RGBA) : Prop :=
  let '(r, g, b, a) := value in
  0 <= r <= 255 /\ 0 <= g <= 255 /\ 0 <= b <= 255 /\ 0 <= a <= 255.

(** What a trace shows: the lines printed, the files written and the
    directories created, each in order. *)
Definition printed {Path} (t : list (event Path)) : list string :=
  omap (fun ev => match ev with Print line => Some line | _ => None end) t.

Definition saved {Path} (t : list (event Path)) : list (Path * Image) :=
  omap (fun ev => match ev with Save path image => Some (path, image) | _ => None end) t.

Definition created {Path} (t : list (event Path)) : list Path :=
  omap (fun ev => match ev with Mkdir path => Some path | _ => None end) t.


(** The artifacts of one asset, in export order: the file name and the
    raster of the unscaled base, when requested, then of each size. *)
Definition export_targets (resize : Image -> Z * Z -> Image) (asset : AssetDefinition)
    (base_image : Image) (sizes : list Z) (include_base : bool)
  : list (string * Image) :=
  (if include_base then [(slug asset +:+ "_base.png", base_image)] else []) ++
  map (fun size => (slug asset +:+ "_" +:+ Py.str size +:+ ".png",
                    resize base_image (size, size)))
      (export_sizes sizes).

(** [c in s] for a character. *)
Fixpoint has_char (c : ascii) (s : string) : bool :=
  match s with
  | EmptyString => false
  | String c' rest => Ascii.eqb c' c || has_char c rest
  end.

(** A decimal digit. *)
Definition is_digit (c : ascii) : bool := has_char c "0123456789".

(** The file names of one asset, in export order. *)
Definition target_names (asset : AssetDefinition) (sizes : list Z) (include_base : bool)
  : list string :=
  (if include_base then [slug asset +:+ "_base.png"] else []) ++
  map (fun size => slug asset +:+ "_" +:+ Py.str size +:+ ".png") (export_sizes sizes).

Definition set_dry_run {Path} (flag : bool) (args : Namespace Path) : Namespace Path :=
  {| output_dir := output_dir args; sizes := sizes args;
     include_base := include_base args; dry_run := flag |}.

(** Small assets for examples. *)
Definition two_rows : AssetDefinition :=
  {| slug := "x";
     grid := ["A"; "AAB"];
     legend := [("A", (Some "#000000", 1.0%float)); ("B", (Some "FF0102", 0.5%float))] |}.

Definition two_rows_resolved : list (string * RGBA) :=
  [("A", (0, 0, 0, 255)); ("B", (255, 1, 2, 128))].

Definition stray_symbol : AssetDefinition :=
  {| slug := "x"; grid := ["A"; "AZB"]; legend := legend two_rows |}.

Definition no_rows : AssetDefinition :=
  {| slug := "x"; grid := []; legend := legend two_rows |}.

(** A concrete environment for examples: paths are strings joined with a
    slash, the resampler is a stand-in, and no write is refused. *)
Definition demo_join (dir name : string) : string := dir +:+ "/" +:+ name.
Definition demo_str (path : string) : string := path.
Definition demo_resize (image : Image) (size : Z * Z) : Image := image.
Definition demo_ok (path : string) : option exception := None.
(** Relative paths in a working directory that holds nothing yet. *)
Definition demo_parents (path : string) : list string := ["."].
Definition demo_is_dir (path : string) : bool := String.eqb path ".".

Definition one_pixel : AssetDefinition :=
  {| slug := "x"; grid := ["A"]; legend := [("A", (Some "#000000", 1.0%float))] |}.

(** A legend entry with signed hex pairs, which [int(_, 16)] accepts. *)
Definition signed_pixel : AssetDefinition :=
  {| slug := "x"; grid := ["A"]; legend := [("A", (Some "-1-2-3", 1.0%float))] |}.

Definition one_pixel_image : Image :=
  {| xsize := 1; ysize := 1; rows := [[(0, 0, 0, 255)]] |}.

Definition demo_args : Namespace string :=
  {| output_dir := "out"; sizes := [96; 48; 0; 48]; include_base := true; dry_run := true |}.

(** A colour as the specification reads it: an optional leading hash, then
    exactly six hexadecimal digits, two per channel. *)
Definition hex_pair (hi lo : ascii) : option Z :=
  h ← Py.digit16 hi; l ← Py.digit16 lo; Some (16 * h + l).

Definition six_hex_digits (s : string) : option RGB :=
  match s with
  | String a (String b (String c (String d (String e (String f EmptyString))))) =>
      r ← hex_pair a b; g ← hex_pair c d; b ← hex_pair e f; Some (r, g, b)
  | _ => None
  end.

Definition hex_triplet (s : string) : option RGB :=
  match s with
  | String c rest => if Ascii.eqb c "#" then six_hex_digits rest else six_hex_digits s
  | EmptyString => None
  end.

(** A legend as the data model has it: each colour absent or a hex
    triplet, each opacity in the unit interval. *)
Definition entry_valid (entry : LegendEntry) : bool :=
  let '(colour, opacity) := entry in
  match colour with
  | None => true
  | Some c => match hex_triplet c with Some _ => true | None => false end
  end && (0 <=? opacity)%float && (opacity <=? 1)%float.

Definition legend_valid (legend : list (string * LegendEntry)) : bool :=
  forallb (fun item => entry_valid item.2) legend.

(** [round(x)] on a float, as Python has it: the nearest integer, a tie
    going to the even one. *)
Definition round_half_even (x : float) : option Z :=
  match Prim2SF x with
  | S754_zero _ => Some 0
  | S754_finite s m e =>
      if 0 <=? e then Some (cond_Zopp s (Zpos m * 2 ^ e))
      else
        let q := Zpos m / 2 ^ (- e) in
        let r := Zpos m mod 2 ^ (- e) in
        let up := match 2 * r ?= 2 ^ (- e) with
                  | Lt => false
                  | Eq => Z.odd q
                  | Gt => true
                  end in
        Some (cond_Zopp s (if up then q + 1 else q))
  | _ => None
  end.

(** The alpha of the specification's wording: [round(opacity * 255)],
    clamped to [0, 255]. *)
Definition spec_alpha (opacity : float) : option Z :=
  a ← round_half_even (opacity * 255)%float; Some (Z.max 0 (Z.min a 255)).

(** Whether [int(_, 16)] reads a two-character text as the specification
    reads a pair of hexadecimal digits. *)
Definition hex_pair_agrees (hi lo : ascii) : bool :=
  match hex_pair hi lo with
  | Some v =>
      match Py.parse16 (String hi (String lo EmptyString)) with
      | Some w => w =? v
      | None => false
      end
  | None => true
  end.

(** Every character, for statements checked by enumeration. *)
Definition all_ascii : list ascii := map ascii_of_nat (seq 0 256).

(** The binary64 values of [1.0], [255.0] and [0.5]. *)
Definition sf_one : spec_float := S754_finite false 4503599627370496 (-52).
Definition sf_255 : spec_float := S754_finite false 8972014882652160 (-45).
Definition sf_half : spec_float := S754_finite false 4503599627370496 (-53).

(** [m * 2 ^ e >= c], stated on integers. *)
Definition at_least (m e c : Z) : Prop :=
  c * 2 ^ Z.max 0 (- e) <= m * 2 ^ Z.max 0 e.

(** [legend[symbol]] on the legend as written, before it is resolved. *)
Fixpoint legend_entry (legend : list (string * LegendEntry)) (symbol : string)
  : option LegendEntry :=
  match legend with
  | [] => None
  | (k, entry) :: rest => if String.eqb k symbol then Some entry else legend_entry rest symbol
  end.

(** The value of a computation that did not raise. *)
Definition returned {A} (r : result A) : option A :=
  match r with
  | Ok a => Some a
  | Raise _ => None
  end.

(** Whether [int(_, 16)], on a two-character text, stays within the bounds
    of a signed single digit and an unsigned pair. *)
Definition pair_in_range (hi lo : ascii) : bool :=
  match Py.parse16 (String hi (String lo EmptyString)) with
  | Some v => (-15 <=? v) && (v <=? 255)
  | None => true
  end.

(** A square asset, and an environment that refuses one file. *)
Definition two_by_two : AssetDefinition :=
  {| slug := "x"; grid := ["AB"; "BA"]; legend := legend two_rows |}.

Definition demo_refuse_48 (path : string) : option exception :=
  if String.eqb path "out/x_48.png" then Some (OSError "No space left on device") else None.

(** * Properties *)

(** Decide a boolean comparison of integers by linear arithmetic. *)
Ltac zbool :=
  first [ apply Z.ltb_ge | apply Z.ltb_lt | apply Z.leb_le | apply Z.leb_gt ]; lia.

(** ** Monad equations *)

Lemma rbind_ok {A B} (a : A) (k : A -> result B) : (x ← Ok a; k x) = k a.
Proof. reflexivity. Qed.

Lemma rbind_raise {A B} (e : exception) (k : A -> result B) :
  (x ← Raise e; k x) = Raise e.
Proof. reflexivity. Qed.

Lemma rbind_inv_ok {A B} (r : result A) (k : A -> result B) (b : B) :
  (x ← r; k x) = Ok b -> exists a, r = Ok a /\ k a = Ok b.
Proof. destruct r as [a|e]; [eauto | discriminate]. Qed.

(** ** Legend resolver *)

(** The sentinel comes back whenever the colour is missing, whatever the
    opacity, and whenever the opacity is not positive, whatever the colour
    (the colour string is then not even parsed). *)
Lemma to_rgba_none (opacity : float) : to_rgba None opacity = Ok TRANSPARENT_PIXEL.
Proof. reflexivity. Qed.

Lemma to_rgba_nonpositive (hex_colour : option string) (opacity : float) :
  (opacity <=? 0)%float = true -> to_rgba hex_colour opacity = Ok TRANSPARENT_PIXEL.
Proof.
  intros Hle. destruct hex_colour as [h|]; [|reflexivity].
  unfold to_rgba. now rewrite Hle.
Qed.

(** C6: a legend entry whose colour is absent, or whose opacity is at most
    zero, resolves to the transparent sentinel [(0,0,0,0)], whatever the
    other field holds. *)
Theorem C6_transparent_sentinel (hex_colour : option string) (opacity : float) :
  hex_colour = None \/ (opacity <=? 0)%float = true ->
  to_rgba hex_colour opacity = Ok (0, 0, 0, 0).
Proof.
  intros [-> | Hle].
  - apply to_rgba_none.
  - now apply to_rgba_nonpositive.
Qed.

Lemma C6_witness :
  (Some "not a colour" = None \/ (-0.5 <=? 0)%float = true) /\
  to_rgba (Some "not a colour") (-0.5)%float = Ok (0, 0, 0, 0).
Proof.
  split.
  - right. reflexivity.
  - apply C6_transparent_sentinel. right. reflexivity.
Defined.

(** Lenient parsing: [int(_, 16)] takes a sign or a blank next to a single
    digit, and [lstrip] removes every leading hash. *)
Example hex_to_rgb_signed : hex_to_rgb "-1-2-3" = Ok (-1, -2, -3).
Proof. reflexivity. Qed.

Example hex_to_rgb_blanks : hex_to_rgb "#+a b c" = Ok (10, 11, 12).
Proof. reflexivity. Qed.

Example hex_to_rgb_hashes : hex_to_rgb "##1F2A44" = Ok (31, 42, 68).
Proof. reflexivity. Qed.

Example hex_to_rgb_short :
  hex_to_rgb "#1F2A4" = Raise (ValueError "Unsupported colour value: '#1F2A4'").
Proof. reflexivity. Qed.

Example hex_to_rgb_not_hex :
  hex_to_rgb "#1F2A4G" =
  Raise (ValueError "invalid literal for int() with base 16: '4G'").
Proof. reflexivity. Qed.

(** A colour whose stripped text is not six characters long is refused. *)
Lemma hex_to_rgb_bad_length (hex_colour : string) :
  Py.len (Py.lstrip "#" hex_colour) <> 6 ->
  hex_to_rgb hex_colour =
  Raise (ValueError ("Unsupported colour value: " +:+ Py.repr hex_colour)).
Proof.
  intros Hlen. unfold hex_to_rgb. now rewrite bool_decide_eq_true_2.
Qed.

(** C3, at the failing input: the colour ["-1-2-3"] has no leading hash and
    is not six hexadecimal digits, yet the entry [("-1-2-3", 1.0)] resolves,
    to a pixel with negative channels, instead of being refused. *)
Theorem C3_signed_colour_accepted :
  to_rgba (Some "-1-2-3") 1.0%float = Ok (-1, -2, -3, 255).
Proof. reflexivity. Qed.

(** ** Rasters *)

Lemma Image_new_spec (side : Z) (colour : RGBA) :
  0 <= side ->
  exists im, Image_new (side, side) colour = Ok im /\ Image_wf im /\
    xsize im = side /\ ysize im = side /\
    forall x y, 0 <= x < side -> 0 <= y < side ->
                getpixel im (x, y) = Some (clip_pixel colour).
Proof.
  intros Hside. unfold Image_new.
  assert ((side <? 0) = false) as -> by zbool. cbn [orb].
  eexists. split; [reflexivity|]. repeat split; cbn; try lia.
  - now rewrite length_replicate.
  - apply Forall_replicate. now rewrite length_replicate.
  - intros x y Hx Hy. unfold getpixel. cbn.
    assert ((x <? 0) = false) as -> by zbool. assert ((y <? 0) = false) as -> by zbool. cbn.
    rewrite lookup_replicate_2 by lia. cbn.
    apply lookup_replicate_2. lia.
Qed.

Lemma getpixel_outside (im : Image) (x y : Z) :
  Image_wf im -> ~ (0 <= x < xsize im /\ 0 <= y < ysize im) -> getpixel im (x, y) = None.
Proof.
  intros (Hx & Hy & Hrows & Hrow) Hout. unfold getpixel.
  destruct (x <? 0) eqn:Ex; [reflexivity|]. destruct (y <? 0) eqn:Ey; [reflexivity|]. cbn.
  destruct (rows im !! Z.to_nat y) as [row|] eqn:Erow; [|reflexivity]. cbn.
  apply lookup_ge_None.
  assert (length row = Z.to_nat (xsize im)) as ->.
  { eapply Forall_forall in Hrow; [exact Hrow|]. eapply list_elem_of_lookup_2; eauto. }
  apply lookup_lt_Some in Erow. lia.
Qed.

Lemma clip8_id (v : Z) : 0 <= v <= 255 -> clip8 v = v.
Proof.
  intros Hv. unfold clip8. destruct (v <=? 0) eqn:E0.
  - apply Z.leb_le in E0. lia.
  - assert ((v <? 256) = true) as -> by zbool. reflexivity.
Qed.

Lemma clip8_range (v : Z) : 0 <= clip8 v <= 255.
Proof.
  unfold clip8. destruct (v <=? 0) eqn:E0; [lia|]. apply Z.leb_gt in E0.
  destruct (v <? 256) eqn:E1; [apply Z.ltb_lt in E1|]; lia.
Qed.

(** Clipping changes nothing of a pixel within the range of the raster. *)
Lemma clip_pixel_id (value : RGBA) : in_gamut value -> clip_pixel value = value.
Proof.
  destruct value as [[[r g] b] a]. intros (Hr & Hg & Hb & Ha). cbn.
  now rewrite !clip8_id.
Qed.

Lemma clip_pixel_gamut (value : RGBA) : in_gamut (clip_pixel value).
Proof. destruct value as [[[r g] b] a]. cbn. split_and!; apply clip8_range. Qed.

Example clip_pixel_example :
  clip_pixel (-1, -2, -3, 255) = (0, 0, 0, 255) /\ clip_pixel (300, 255, 0, 7) = (255, 255, 0, 7).
Proof. split; reflexivity. Qed.

Lemma putpixel_spec (im : Image) (x y : Z) (v : RGBA) :
  Image_wf im -> 0 <= x < xsize im -> 0 <= y < ysize im ->
  exists im', putpixel im (x, y) v = Ok im' /\ Image_wf im' /\
    xsize im' = xsize im /\ ysize im' = ysize im /\
    forall x' y', getpixel im' (x', y') =
                  if decide (x' = x /\ y' = y) then Some (clip_pixel v)
                  else getpixel im (x', y').
Proof.
  intros (Hxs & Hys & Hrows & Hrow) Hx Hy. unfold putpixel.
  assert ((x <? 0) = false) as Hx0 by zbool. assert ((y <? 0) = false) as Hy0 by zbool.
  assert ((xsize im <=? x) = false) as Hx1 by zbool.
  assert ((ysize im <=? y) = false) as Hy1 by zbool.
  rewrite Hx0, Hy0. cbv iota. rewrite Hx0, Hy0, Hx1, Hy1. cbn [orb].
  eexists. split; [reflexivity|]. split; [|split; [reflexivity|split; [reflexivity|]]].
  - repeat split; cbn; try lia.
    + now rewrite length_alter.
    + apply Forall_alter; [exact Hrow|]. intros row _ Hlen. now rewrite length_insert.
  - intros x' y'. unfold getpixel. cbn.
    destruct (x' <? 0) eqn:Ex'.
    { destruct (decide _) as [[-> _]|]; [lia|reflexivity]. }
    destruct (y' <? 0) eqn:Ey'.
    { destruct (decide _) as [[_ ->]|]; [lia|reflexivity]. }
    cbn.
    destruct (decide (y' = y)) as [->|Hne].
    + rewrite list_lookup_alter_eq.
      destruct (rows im !! Z.to_nat y) as [row|] eqn:Erow; cbn.
      * assert (length row = Z.to_nat (xsize im)) as Hlen.
        { eapply Forall_forall in Hrow; [exact Hrow|]. eapply list_elem_of_lookup_2; eauto. }
        destruct (decide (x' = x)) as [->|Hnx].
        -- rewrite decide_True by done. apply list_lookup_insert_eq. lia.
        -- rewrite decide_False by tauto. apply list_lookup_insert_ne. lia.
      * apply lookup_ge_None in Erow. lia.
    + rewrite decide_False by tauto.
      rewrite list_lookup_alter_ne by lia. reflexivity.
Qed.

(** ** Grid rasteriser *)

Lemma symbol_at_cons (c : ascii) (rest : string) (i : Z) :
  symbol_at (String c rest) i = if decide (i = 0) then Some c else symbol_at rest (i - 1).
Proof.
  unfold symbol_at. destruct (decide (i = 0)) as [->|Hne]; [reflexivity|].
  destruct (i <? 0) eqn:Ei.
  - assert ((i - 1 <? 0) = true) as -> by zbool. reflexivity.
  - assert ((i - 1 <? 0) = false) as -> by zbool.
    replace (Z.to_nat i) with (S (Z.to_nat (i - 1))) by lia. reflexivity.
Qed.

Lemma symbol_at_range (row : string) (i : Z) (c : ascii) :
  symbol_at row i = Some c -> 0 <= i < Py.len row.
Proof.
  unfold symbol_at, Py.len. destruct (i <? 0) eqn:Ei; [discriminate|].
  revert i Ei. induction row as [|d row IH]; intros i Ei Hget.
  - destruct (Z.to_nat i); discriminate.
  - destruct (Z.to_nat i) as [|n] eqn:En; cbn in *; [lia|].
    specialize (IH (Z.of_nat n)). rewrite Nat2Z.id in IH.
    assert ((Z.of_nat n <? 0) = false) as Hn by zbool. specialize (IH Hn Hget). lia.
Qed.

Lemma row_overlay_cons (legend : list (string * RGBA)) (start : Z) (c : ascii)
    (rest : string) (x : Z) :
  row_overlay legend start (String c rest) x =
  if decide (x = start) then legend_get legend (String c EmptyString)
  else row_overlay legend (start + 1) rest x.
Proof.
  unfold row_overlay. rewrite symbol_at_cons.
  destruct (decide (x = start)) as [->|Hne].
  - rewrite decide_True by lia. reflexivity.
  - rewrite decide_False by lia. now replace (x - start - 1) with (x - (start + 1)) by lia.
Qed.

Lemma row_overlay_before (legend : list (string * RGBA)) (start : Z) (row : string) (x : Z) :
  x < start -> row_overlay legend start row x = None.
Proof.
  intros Hlt. unfold row_overlay, symbol_at.
  assert ((x - start <? 0) = true) as -> by zbool. reflexivity.
Qed.

Lemma row_overlay_nil (legend : list (string * RGBA)) (start x : Z) :
  row_overlay legend start EmptyString x = None.
Proof. unfold row_overlay, symbol_at. destruct (x - start <? 0); reflexivity. Qed.

Lemma grid_overlay_nil (legend : list (string * RGBA)) (side ystart x y : Z) :
  grid_overlay legend side ystart [] x y = None.
Proof. unfold grid_overlay. destruct (y <? ystart); reflexivity. Qed.

Lemma grid_overlay_cons (legend : list (string * RGBA)) (side ystart : Z) (row : string)
    (rest : list string) (x y : Z) :
  grid_overlay legend side ystart (row :: rest) x y =
  if decide (y = ystart) then row_overlay legend ((side - Py.len row) / 2) row x
  else grid_overlay legend side (ystart + 1) rest x y.
Proof.
  unfold grid_overlay. destruct (decide (y = ystart)) as [->|Hne].
  - assert ((ystart <? ystart) = false) as -> by zbool.
    now replace (Z.to_nat (ystart - ystart)) with O by lia.
  - destruct (y <? ystart) eqn:Ey.
    + assert ((y <? ystart + 1) = true) as -> by zbool. reflexivity.
    + assert ((y <? ystart + 1) = false) as -> by zbool.
      replace (Z.to_nat (y - ystart)) with (S (Z.to_nat (y - (ystart + 1)))) by lia.
      reflexivity.
Qed.

(** One row: either the first undefined symbol is reported, or every cell
    of the row is painted over the canvas and nothing else changes. *)
Lemma paint_row_spec (legend : list (string * RGBA)) (slug : string) (hoff y : Z)
    (row : string) :
  forall (col : Z) (canvas : Image),
    Image_wf canvas -> 0 <= y < ysize canvas ->
    0 <= hoff + col -> hoff + col + Py.len row <= xsize canvas ->
    match first_unknown legend row with
    | Some c =>
        paint_row legend slug hoff y col row canvas =
        Raise (unknown_symbol (String c EmptyString) slug legend)
    | None =>
        exists canvas',
          paint_row legend slug hoff y col row canvas = Ok canvas' /\
          Image_wf canvas' /\ xsize canvas' = xsize canvas /\ ysize canvas' = ysize canvas /\
          forall x' y',
            getpixel canvas' (x', y') =
            painted (if decide (y' = y) then row_overlay legend (hoff + col) row x' else None)
                    (getpixel canvas (x', y'))
    end.
Proof.
  induction row as [|c rest IH]; intros col canvas Hwf Hy Hlo Hhi.
  - cbn. exists canvas. split_and!; try done.
    intros x' y'. rewrite row_overlay_nil. destruct (decide (y' = y)); reflexivity.
  - unfold Py.len in Hhi. cbn [String.length] in Hhi.
    cbn [first_unknown paint_row].
    destruct (legend_get legend (String c EmptyString)) as [pixel|] eqn:Eget; [|reflexivity].
    assert (exists canvas1,
      (if decide (pixel = TRANSPARENT_PIXEL) then Ok canvas
       else putpixel canvas (hoff + col, y) pixel) = Ok canvas1 /\
      Image_wf canvas1 /\ xsize canvas1 = xsize canvas /\ ysize canvas1 = ysize canvas /\
      forall x' y', getpixel canvas1 (x', y') =
        painted (if decide (x' = hoff + col /\ y' = y) then Some pixel else None)
                (getpixel canvas (x', y'))) as (canvas1 & -> & Hwf1 & Hx1 & Hy1 & Hpix1).
    { destruct (decide (pixel = TRANSPARENT_PIXEL)) as [->|Hnt].
      - exists canvas. split_and!; try done.
        intros x' y'. destruct (decide _); reflexivity.
      - destruct (putpixel_spec canvas (hoff + col) y pixel) as (im' & Hput & ? & ? & ? & Hpix);
          [done|lia|done|].
        exists im'. split_and!; try done.
        intros x' y'. rewrite Hpix. destruct (decide _); [|reflexivity].
        unfold painted. now rewrite decide_False. }
    rewrite rbind_ok.
    specialize (IH (col + 1) canvas1 Hwf1).
    replace (hoff + (col + 1)) with (hoff + col + 1) in IH by lia.
    unfold Py.len in IH.
    destruct (first_unknown legend rest) as [u|].
    + apply IH; lia.
    + destruct IH as (canvas' & Hrun & Hwf' & Hx' & Hy' & Hpix'); [lia..|].
      exists canvas'. split_and!; try congruence.
      intros x' y'. rewrite Hpix', Hpix1.
      destruct (decide (y' = y)) as [->|Hny].
      * rewrite row_overlay_cons, Eget.
        destruct (decide (x' = hoff + col)) as [->|Hnx].
        -- rewrite decide_True by done.
           rewrite row_overlay_before by lia. reflexivity.
        -- rewrite (decide_False (P := x' = hoff + col /\ y = y)) by tauto. reflexivity.
      * rewrite decide_False by tauto. reflexivity.
Qed.

Lemma painted_painted (a b old : option RGBA) :
  painted a (painted b old) = painted (match a with
                                        | Some p => if decide (p = TRANSPARENT_PIXEL) then b else a
                                        | None => b
                                        end) old.
Proof.
  destruct a as [p|]; cbn; [|reflexivity].
  destruct (decide (p = TRANSPARENT_PIXEL)) as [->|Hp]; [reflexivity|].
  cbn. now rewrite decide_False.
Qed.

(** A centring offset keeps a span of length [l] inside a side that holds it. *)
Lemma centre_bounds (side l : Z) :
  0 <= l <= side -> 0 <= (side - l) / 2 /\ (side - l) / 2 + l <= side.
Proof. intros Hl. Z.to_euclidean_division_equations. lia. Qed.

(** All rows from [row_index] on, under the geometry that the caller sets up:
    the canvas is a square of side [side] that holds the remaining rows. *)
Lemma paint_rows_spec (legend : list (string * RGBA)) (slug : string) (side voff : Z)
    (grid : list string) :
  forall (row_index : Z) (canvas : Image),
    Image_wf canvas -> xsize canvas = side -> ysize canvas = side ->
    0 <= voff + row_index -> voff + row_index + Py.len_list grid <= side ->
    Forall (fun row => Py.len row <= side) grid ->
    match first_unknown_grid legend grid with
    | Some c =>
        paint_rows legend slug side voff row_index grid canvas =
        Raise (unknown_symbol (String c EmptyString) slug legend)
    | None =>
        exists canvas',
          paint_rows legend slug side voff row_index grid canvas = Ok canvas' /\
          Image_wf canvas' /\ xsize canvas' = side /\ ysize canvas' = side /\
          forall x y,
            getpixel canvas' (x, y) =
            painted (grid_overlay legend side (voff + row_index) grid x y)
                    (getpixel canvas (x, y))
    end.
Proof.
  induction grid as [|row rest IH]; intros row_index canvas Hwf Hxs Hys Hlo Hhi Hlen.
  - cbn. exists canvas. split_and!; try done.
    intros x y. now rewrite grid_overlay_nil.
  - unfold Py.len_list in Hhi. cbn [List.length] in Hhi.
    apply Forall_cons in Hlen as [Hrow Hlen].
    assert (0 <= Py.len row) as Hrow0 by (unfold Py.len; lia).
    destruct (centre_bounds side (Py.len row)) as [Hc1 Hc2]; [lia|].
    cbn [first_unknown_grid paint_rows].
    pose proof (paint_row_spec legend slug ((side - Py.len row) / 2) (voff + row_index)
                  row 0 canvas Hwf) as Hpaint.
    destruct (first_unknown legend row) as [u|].
    + rewrite Hpaint; [reflexivity|lia..].
    + destruct Hpaint as (canvas1 & -> & Hwf1 & Hx1 & Hy1 & Hpix1); [lia..|].
      rewrite rbind_ok.
      specialize (IH (row_index + 1) canvas1 Hwf1).
      replace (voff + (row_index + 1)) with (voff + row_index + 1) in IH by lia.
      unfold Py.len_list in IH.
      destruct (first_unknown_grid legend rest) as [u|].
      * apply IH; (lia || done).
      * destruct IH as (canvas' & Hrun & Hwf' & Hx' & Hy' & Hpix'); [lia..|done|].
        exists canvas'. split_and!; try done.
        intros x y. rewrite Hpix', Hpix1, painted_painted, grid_overlay_cons.
        rewrite Z.add_0_r.
        destruct (decide (y = voff + row_index)) as [->|Hny].
        -- unfold grid_overlay.
           assert ((voff + row_index <? voff + row_index + 1) = true) as -> by zbool.
           reflexivity.
        -- destruct (grid_overlay legend side (voff + row_index + 1) rest x y) as [p|];
             [|reflexivity].
           now destruct (decide (p = TRANSPARENT_PIXEL)) as [->|].
Qed.

Lemma fold_left_max (ls : list Z) :
  forall a, 0 <= a -> fold_left Z.max ls a = Z.max a (foldr Z.max 0 ls).
Proof.
  induction ls as [|l ls IH]; intros a Ha; cbn.
  - lia.
  - rewrite IH by lia. lia.
Qed.

Lemma py_max_spec (grid : list string) :
  grid <> [] ->
  py_max (Py.len_list grid :: map Py.len grid) =
  Ok (Z.max (Py.len_list grid) (max_row_length grid)).
Proof.
  intros Hne. destruct grid as [|row rest]; [done|].
  cbn [map py_max]. f_equal. unfold max_row_length. cbn [map foldr fold_left].
  rewrite fold_left_max by (unfold Py.len_list; lia). lia.
Qed.

Lemma max_row_length_bound (grid : list string) :
  Forall (fun row => Py.len row <= max_row_length grid) grid.
Proof.
  induction grid as [|row rest IH]; constructor.
  - unfold max_row_length. cbn. lia.
  - eapply Forall_impl; [exact IH|]. intros r Hr. unfold max_row_length in *. cbn. lia.
Qed.

Lemma max_row_length_nonneg (grid : list string) : 0 <= max_row_length grid.
Proof. induction grid; unfold max_row_length in *; cbn; lia. Qed.

Lemma normalise_legend_keys (legend : list (string * LegendEntry))
    (resolved : list (string * RGBA)) :
  normalise_legend legend = Ok resolved -> map fst resolved = map fst legend.
Proof.
  revert resolved. induction legend as [|[symbol [hex_colour opacity]] rest IH];
    intros resolved Hnorm; cbn in Hnorm.
  - now inversion Hnorm.
  - apply rbind_inv_ok in Hnorm as (pixel & _ & Hnorm).
    apply rbind_inv_ok in Hnorm as (rest' & Hrest & Hnorm).
    inversion Hnorm; subst. cbn. f_equal. now apply IH.
Qed.

(** The rasteriser as a whole. *)
Lemma render_asset_grid_spec (asset : AssetDefinition) (resolved : list (string * RGBA)) :
  normalise_legend (legend asset) = Ok resolved ->
  grid asset <> [] ->
  let side := Z.max (Py.len_list (grid asset)) (max_row_length (grid asset)) in
  match first_unknown_grid resolved (grid asset) with
  | Some c =>
      render_asset_grid asset =
      Raise (unknown_symbol (String c EmptyString) (slug asset) resolved)
  | None =>
      exists canvas,
        render_asset_grid asset = Ok canvas /\
        Image_wf canvas /\ xsize canvas = side /\ ysize canvas = side /\
        forall x y,
          0 <= x < side -> 0 <= y < side ->
          getpixel canvas (x, y) =
          Some (default TRANSPARENT_PIXEL
                  (clip_pixel <$>
                   grid_overlay resolved side ((side - Py.len_list (grid asset)) / 2)
                     (grid asset) x y))
  end.
Proof.
  intros Hnorm Hne side. unfold render_asset_grid.
  rewrite Hnorm, rbind_ok, (py_max_spec _ Hne), rbind_ok. fold side.
  assert (0 <= Py.len_list (grid asset)) as HR by (unfold Py.len_list; lia).
  destruct (centre_bounds side (Py.len_list (grid asset))) as [Hc1 Hc2]; [lia|].
  destruct (Image_new_spec side TRANSPARENT_PIXEL) as (im & -> & Hwf & Hx & Hy & Hpix); [lia|].
  rewrite rbind_ok.
  pose proof (paint_rows_spec resolved (slug asset) side
                ((side - Py.len_list (grid asset)) / 2) (grid asset) 0 im Hwf Hx Hy)
    as Hpaint.
  rewrite Z.add_0_r in Hpaint.
  assert (Forall (fun row => Py.len row <= side) (grid asset)) as Hlen.
  { eapply Forall_impl; [apply max_row_length_bound|]. intros r Hr. cbn in Hr. lia. }
  destruct (first_unknown_grid resolved (grid asset)) as [u|].
  - apply Hpaint; (lia || done).
  - destruct Hpaint as (canvas & Hrun & Hwf' & Hx' & Hy' & Hpix'); [lia..|done|].
    exists canvas. split_and!; try done.
    intros x y Hxr Hyr. rewrite Hpix', Hpix by done.
    destruct (grid_overlay _ _ _ _ _ _) as [p|]; cbn; [|reflexivity].
    now destruct (decide (p = TRANSPARENT_PIXEL)) as [->|].
Qed.

(** What [first_unknown] and [first_unknown_grid] find. *)
Lemma first_unknown_None (legend : list (string * RGBA)) (row : string) :
  first_unknown legend row = None ->
  forall (i : nat) (c : ascii),
    String.get i row = Some c -> is_Some (legend_get legend (String c EmptyString)).
Proof.
  induction row as [|d rest IH]; intros Hnone i c Hget; [destruct i; discriminate|].
  cbn in Hnone.
  destruct (legend_get legend (String d EmptyString)) as [p|] eqn:Ed; [|discriminate].
  destruct i as [|i]; cbn in Hget.
  - inversion Hget; subst. rewrite Ed. eauto.
  - eapply IH; eauto.
Qed.

Lemma first_unknown_Some (legend : list (string * RGBA)) (row : string) (c : ascii) :
  first_unknown legend row = Some c ->
  legend_get legend (String c EmptyString) = None /\ exists i, String.get i row = Some c.
Proof.
  induction row as [|d rest IH]; intros Hsome; [discriminate|].
  cbn in Hsome.
  destruct (legend_get legend (String d EmptyString)) as [p|] eqn:Ed.
  - destruct (IH Hsome) as [Hc [i Hi]]. split; [done|]. now exists (S i).
  - inversion Hsome; subst. split; [done|]. now exists O.
Qed.

Lemma first_unknown_grid_None (legend : list (string * RGBA)) (grid : list string) :
  first_unknown_grid legend grid = None ->
  forall (row : string) (i : nat) (c : ascii),
    row ∈ grid -> String.get i row = Some c ->
    is_Some (legend_get legend (String c EmptyString)).
Proof.
  induction grid as [|r rest IH]; intros Hnone row i c Hin Hget.
  - now apply not_elem_of_nil in Hin.
  - cbn in Hnone. destruct (first_unknown legend r) eqn:Er; [discriminate|].
    apply elem_of_cons in Hin as [->|Hin].
    + eapply first_unknown_None; eauto.
    + eapply IH; eauto.
Qed.

Lemma first_unknown_grid_Some (legend : list (string * RGBA)) (grid : list string) (c : ascii) :
  first_unknown_grid legend grid = Some c ->
  legend_get legend (String c EmptyString) = None /\
  exists row i, row ∈ grid /\ String.get i row = Some c.
Proof.
  induction grid as [|r rest IH]; intros Hsome; [discriminate|].
  cbn in Hsome. destruct (first_unknown legend r) as [u|] eqn:Er.
  - inversion Hsome; subst. apply first_unknown_Some in Er as [Hc [i Hi]].
    split; [done|]. exists r, i. split; [left|done].
  - destruct (IH Hsome) as [Hc (row & i & Hin & Hi)].
    split; [done|]. exists row, i. split; [now right|done].
Qed.

(** The legend is complete for the grid exactly when no symbol is found
    undefined. *)
Lemma legend_complete_iff (legend : list (string * RGBA)) (grid : list string) :
  first_unknown_grid legend grid = None <->
  forall (row : string) (i : nat) (c : ascii),
    row ∈ grid -> String.get i row = Some c ->
    is_Some (legend_get legend (String c EmptyString)).
Proof.
  split; [apply first_unknown_grid_None|].
  intros Hall. destruct (first_unknown_grid legend grid) as [c|] eqn:Efirst; [|done].
  apply first_unknown_grid_Some in Efirst as [Hnone (row & i & Hin & Hget)].
  destruct (Hall row i c Hin Hget) as [p Hp]. congruence.
Qed.

(** A position under the overlay lies in a cell of the centred grid. *)
Lemma grid_overlay_Some (legend : list (string * RGBA)) (side voff : Z)
    (grid : list string) (x y : Z) (pixel : RGBA) :
  grid_overlay legend side voff grid x y = Some pixel ->
  exists (r : nat) (row : string) (c : nat) (symbol : ascii),
    grid !! r = Some row /\ String.get c row = Some symbol /\
    x = (side - Py.len row) / 2 + Z.of_nat c /\ y = voff + Z.of_nat r /\
    legend_get legend (String symbol EmptyString) = Some pixel.
Proof.
  unfold grid_overlay. destruct (y <? voff) eqn:Ey; [discriminate|].
  destruct (grid !! Z.to_nat (y - voff)) as [row|] eqn:Erow; [|discriminate]. cbn.
  unfold row_overlay, symbol_at.
  destruct (x - (side - Py.len row) / 2 <? 0) eqn:Ex; [discriminate|].
  destruct (String.get _ row) as [symbol|] eqn:Eget; [|discriminate]. cbn.
  intros Hget. exists (Z.to_nat (y - voff)), row, (Z.to_nat (x - (side - Py.len row) / 2)), symbol.
  split_and!; try done; lia.
Qed.

Lemma grid_overlay_cell (legend : list (string * RGBA)) (side voff : Z)
    (grid : list string) (r c : nat) (row : string) (symbol : ascii) :
  grid !! r = Some row -> String.get c row = Some symbol ->
  grid_overlay legend side voff grid
    ((side - Py.len row) / 2 + Z.of_nat c) (voff + Z.of_nat r) =
  legend_get legend (String symbol EmptyString).
Proof.
  intros Hrow Hget. unfold grid_overlay.
  assert ((voff + Z.of_nat r <? voff) = false) as -> by zbool.
  replace (Z.to_nat (voff + Z.of_nat r - voff)) with r by lia.
  rewrite Hrow. cbn. unfold row_overlay, symbol_at.
  replace ((side - Py.len row) / 2 + Z.of_nat c - (side - Py.len row) / 2)
    with (Z.of_nat c) by lia.
  assert ((Z.of_nat c <? 0) = false) as -> by zbool.
  rewrite Nat2Z.id, Hget. reflexivity.
Qed.

Lemma get_Some_lt (row : string) (c : nat) (symbol : ascii) :
  String.get c row = Some symbol -> Z.of_nat c < Py.len row.
Proof.
  intros Hget. pose proof (symbol_at_range row (Z.of_nat c) symbol) as Hr.
  unfold symbol_at in Hr. assert ((Z.of_nat c <? 0) = false) as Hc by zbool.
  rewrite Hc, Nat2Z.id in Hr. specialize (Hr Hget). lia.
Qed.

(** C1: for a non-empty grid of [R] rows whose longest row has length [C],
    the side computed for the canvas is [max R C]; and when the legend
    resolves and defines every symbol, the canvas is a square of that side
    in which row [r] is placed at line [(max R C - R) // 2 + r] and its cell
    [c] at column [(max R C - len(row)) // 2 + c], an offset taken from that
    row's own length. The raster shows there the symbol's resolved pixel as
    an 8-bit raster stores it, each channel clipped to [0..255]: the
    resolved pixel itself when its channels are within that range. *)
Theorem C1_centred_square_canvas (asset : AssetDefinition) :
  grid asset <> [] ->
  let R := Py.len_list (grid asset) in
  let C := max_row_length (grid asset) in
  py_max (R :: map Py.len (grid asset)) = Ok (Z.max R C) /\
  forall resolved : list (string * RGBA),
    normalise_legend (legend asset) = Ok resolved ->
    first_unknown_grid resolved (grid asset) = None ->
    exists canvas,
      render_asset_grid asset = Ok canvas /\
      Image_wf canvas /\ xsize canvas = Z.max R C /\ ysize canvas = Z.max R C /\
      forall (r : nat) (row : string) (c : nat) (symbol : ascii),
        grid asset !! r = Some row -> String.get c row = Some symbol ->
        exists pixel,
          legend_get resolved (String symbol EmptyString) = Some pixel /\
          getpixel canvas ((Z.max R C - Py.len row) / 2 + Z.of_nat c,
                           (Z.max R C - R) / 2 + Z.of_nat r) = Some (clip_pixel pixel) /\
          (in_gamut pixel ->
           getpixel canvas ((Z.max R C - Py.len row) / 2 + Z.of_nat c,
                            (Z.max R C - R) / 2 + Z.of_nat r) = Some pixel).
Proof.
  intros Hne R C. split; [now apply py_max_spec|].
  intros resolved Hnorm Hknown.
  pose proof (render_asset_grid_spec asset resolved Hnorm Hne) as Hspec.
  cbn zeta in Hspec. rewrite Hknown in Hspec. fold R C in Hspec.
  destruct Hspec as (canvas & Hrun & Hwf & Hx & Hy & Hpix).
  exists canvas. split_and!; try done.
  intros r row c symbol Hrow Hget.
  assert (row ∈ grid asset) as Hin by (eapply list_elem_of_lookup_2; eauto).
  destruct (first_unknown_grid_None _ _ Hknown row c symbol Hin Hget) as [pixel Hpixel].
  pose proof (get_Some_lt _ _ _ Hget) as Hc.
  apply lookup_lt_Some in Hrow as Hr.
  pose proof (max_row_length_bound (grid asset)) as Hbound.
  eapply Forall_forall in Hbound; [|exact Hin]. fold C in Hbound.
  assert (0 <= R) as HR by (unfold R, Py.len_list; lia).
  assert (Z.of_nat r < R) as Hr' by (unfold R, Py.len_list; lia).
  destruct (centre_bounds (Z.max R C) (Py.len row)) as [Hc1 Hc2]; [lia|].
  destruct (centre_bounds (Z.max R C) R) as [Hr1 Hr2]; [lia|].
  exists pixel. split; [exact Hpixel|].
  rewrite Hpix by lia.
  rewrite (grid_overlay_cell _ _ _ _ _ _ _ _ Hrow Hget), Hpixel.
  split; [reflexivity|]. intros Hgamut. cbn. now rewrite clip_pixel_id.
Qed.

(** A resolved pixel with negative channels reaches the raster clipped. *)
Example signed_pixel_is_clipped :
  normalise_legend (legend signed_pixel) = Ok [("A", (-1, -2, -3, 255))] /\
  (canvas ← render_asset_grid signed_pixel; Ok (getpixel canvas (0, 0))) =
  Ok (Some (0, 0, 0, 255)).
Proof. split; reflexivity. Qed.

Lemma C1_witness :
  grid two_rows <> [] /\
  py_max (2 :: map Py.len (grid two_rows)) = Ok 3 /\
  exists canvas,
    render_asset_grid two_rows = Ok canvas /\
    Image_wf canvas /\ xsize canvas = 3 /\ ysize canvas = 3 /\
    forall (r : nat) (row : string) (c : nat) (symbol : ascii),
      grid two_rows !! r = Some row -> String.get c row = Some symbol ->
      exists pixel,
        legend_get two_rows_resolved (String symbol EmptyString) = Some pixel /\
        getpixel canvas ((3 - Py.len row) / 2 + Z.of_nat c, (3 - 2) / 2 + Z.of_nat r) =
          Some (clip_pixel pixel) /\
        (in_gamut pixel ->
         getpixel canvas ((3 - Py.len row) / 2 + Z.of_nat c, (3 - 2) / 2 + Z.of_nat r) =
           Some pixel).
Proof.
  assert (grid two_rows <> []) as Hne by discriminate.
  split; [exact Hne|].
  destruct (C1_centred_square_canvas two_rows Hne) as [Hside Hcanvas].
  split; [exact Hside|].
  apply (Hcanvas two_rows_resolved); reflexivity.
Defined.

(** C9: for a non-empty grid and a legend that defines every symbol, a
    canvas pixel that is not transparent lies in a cell of the centred grid
    whose symbol resolves to a pixel other than the sentinel, of which it is
    the stored form (each channel clipped to [0..255]); and every canvas
    position that no cell covers holds the transparent sentinel. *)
Theorem C9_nothing_painted_outside_grid (asset : AssetDefinition)
    (resolved : list (string * RGBA)) :
  grid asset <> [] ->
  normalise_legend (legend asset) = Ok resolved ->
  first_unknown_grid resolved (grid asset) = None ->
  let side := Z.max (Py.len_list (grid asset)) (max_row_length (grid asset)) in
  let voff := (side - Py.len_list (grid asset)) / 2 in
  exists canvas,
    render_asset_grid asset = Ok canvas /\
    (forall (x y : Z) (pixel : RGBA),
        getpixel canvas (x, y) = Some pixel -> pixel <> TRANSPARENT_PIXEL ->
        exists (r : nat) (row : string) (c : nat) (symbol : ascii),
          grid asset !! r = Some row /\ String.get c row = Some symbol /\
          x = (side - Py.len row) / 2 + Z.of_nat c /\ y = voff + Z.of_nat r /\
          exists resolved_pixel,
            legend_get resolved (String symbol EmptyString) = Some resolved_pixel /\
            resolved_pixel <> TRANSPARENT_PIXEL /\
            pixel = clip_pixel resolved_pixel) /\
    (forall x y : Z,
        0 <= x < side -> 0 <= y < side ->
        (forall (r : nat) (row : string) (c : nat) (symbol : ascii),
            grid asset !! r = Some row -> String.get c row = Some symbol ->
            ~ (x = (side - Py.len row) / 2 + Z.of_nat c /\ y = voff + Z.of_nat r)) ->
        getpixel canvas (x, y) = Some (0, 0, 0, 0)).
Proof.
  intros Hne Hnorm Hknown side voff.
  pose proof (render_asset_grid_spec asset resolved Hnorm Hne) as Hspec.
  cbn zeta in Hspec. rewrite Hknown in Hspec. fold side voff in Hspec.
  destruct Hspec as (canvas & Hrun & Hwf & Hx & Hy & Hpix).
  exists canvas. split; [done|]. split.
  - intros x y pixel Hget Hnt.
    destruct (decide (0 <= x < side /\ 0 <= y < side)) as [[Hxr Hyr]|Hout].
    + rewrite Hpix in Hget by done.
      destruct (grid_overlay resolved side voff (grid asset) x y) as [p|] eqn:Eov;
        cbn in Hget; [|congruence].
      assert (pixel = clip_pixel p) as Hclip by congruence.
      apply grid_overlay_Some in Eov as (r & row & c & symbol & Hrow & Hsym & Hxc & Hyr' & Hp).
      exists r, row, c, symbol. split_and!; try done.
      exists p. split_and!; try done.
      intros ->. now apply Hnt.
    + rewrite getpixel_outside in Hget; [discriminate|done|].
      rewrite Hx, Hy. exact Hout.
  - intros x y Hxr Hyr Hfree. rewrite Hpix by done.
    destruct (grid_overlay resolved side voff (grid asset) x y) as [p|] eqn:Eov;
      [|reflexivity].
    apply grid_overlay_Some in Eov as (r & row & c & symbol & Hrow & Hsym & -> & -> & _).
    exfalso. eapply Hfree; eauto.
Qed.

Lemma C9_witness :
  (grid two_rows <> [] /\
   normalise_legend (legend two_rows) = Ok two_rows_resolved /\
   first_unknown_grid two_rows_resolved (grid two_rows) = None) /\
  exists canvas,
    render_asset_grid two_rows = Ok canvas /\
    (forall (x y : Z) (pixel : RGBA),
        getpixel canvas (x, y) = Some pixel -> pixel <> TRANSPARENT_PIXEL ->
        exists (r : nat) (row : string) (c : nat) (symbol : ascii),
          grid two_rows !! r = Some row /\ String.get c row = Some symbol /\
          x = (3 - Py.len row) / 2 + Z.of_nat c /\ y = (3 - 2) / 2 + Z.of_nat r /\
          exists resolved_pixel,
            legend_get two_rows_resolved (String symbol EmptyString) = Some resolved_pixel /\
            resolved_pixel <> TRANSPARENT_PIXEL /\
            pixel = clip_pixel resolved_pixel) /\
    (forall x y : Z,
        0 <= x < 3 -> 0 <= y < 3 ->
        (forall (r : nat) (row : string) (c : nat) (symbol : ascii),
            grid two_rows !! r = Some row -> String.get c row = Some symbol ->
            ~ (x = (3 - Py.len row) / 2 + Z.of_nat c /\ y = (3 - 2) / 2 + Z.of_nat r)) ->
        getpixel canvas (x, y) = Some (0, 0, 0, 0)).
Proof.
  split.
  - split_and!; [discriminate | reflexivity | reflexivity].
  - apply (C9_nothing_painted_outside_grid two_rows two_rows_resolved);
      [discriminate | reflexivity | reflexivity].
Defined.

(** ** Failures of the rasteriser *)

Lemma sorted_str_spec (keys : list string) :
  Sorted String.le (sorted_str keys) /\ sorted_str keys ≡ₚ keys.
Proof.
  split; [apply Sorted_merge_sort; apply _ | apply merge_sort_Permutation].
Qed.

(** C2: when some character of the grid has no entry in the (resolvable)
    legend, rasterisation raises the unknown-symbol error, a [KeyError]; its
    message quotes the first such character in reading order, then the
    asset's slug, then the legend's symbols in sorted order. *)
Theorem C2_unknown_symbol_reported (asset : AssetDefinition)
    (resolved : list (string * RGBA)) (row : string) (i : nat) (symbol : ascii) :
  normalise_legend (legend asset) = Ok resolved ->
  row ∈ grid asset -> String.get i row = Some symbol ->
  legend_get resolved (String symbol EmptyString) = None ->
  exists (offending : ascii) (known : list string),
    first_unknown_grid resolved (grid asset) = Some offending /\
    legend_get resolved (String offending EmptyString) = None /\
    Sorted String.le known /\ known ≡ₚ map fst (legend asset) /\
    render_asset_grid asset =
    Raise (KeyError ("Symbol " +:+ Py.repr (String offending EmptyString) +:+ " in "
                     +:+ slug asset +:+ " is not defined. Known symbols: "
                     +:+ Py.join ", " known)).
Proof.
  intros Hnorm Hin Hget Hnone.
  assert (grid asset <> []) as Hne.
  { intros Hnil. rewrite Hnil in Hin. now apply not_elem_of_nil in Hin. }
  pose proof (render_asset_grid_spec asset resolved Hnorm Hne) as Hspec.
  cbn zeta in Hspec.
  destruct (first_unknown_grid resolved (grid asset)) as [offending|] eqn:Efirst.
  - exists offending, (sorted_str (map fst resolved)).
    apply first_unknown_grid_Some in Efirst as [Hoff _].
    destruct (sorted_str_spec (map fst resolved)) as [Hsorted Hperm].
    rewrite (normalise_legend_keys _ _ Hnorm) in Hperm at 2.
    split_and!; try done.
  - destruct (first_unknown_grid_None _ _ Efirst row i symbol Hin Hget) as [p Hp].
    congruence.
Qed.

Lemma C2_witness :
  (normalise_legend (legend stray_symbol) = Ok two_rows_resolved /\
   "AZB" ∈ grid stray_symbol /\ String.get 1 "AZB" = Some "Z"%char /\
   legend_get two_rows_resolved "Z" = None) /\
  exists (offending : ascii) (known : list string),
    first_unknown_grid two_rows_resolved (grid stray_symbol) = Some offending /\
    legend_get two_rows_resolved (String offending EmptyString) = None /\
    Sorted String.le known /\ known ≡ₚ map fst (legend stray_symbol) /\
    render_asset_grid stray_symbol =
    Raise (KeyError ("Symbol " +:+ Py.repr (String offending EmptyString) +:+ " in "
                     +:+ slug stray_symbol +:+ " is not defined. Known symbols: "
                     +:+ Py.join ", " known)).
Proof.
  assert ("AZB" ∈ grid stray_symbol) as Hin by (right; left).
  split.
  - split_and!; [reflexivity | exact Hin | reflexivity | reflexivity].
  - apply (C2_unknown_symbol_reported stray_symbol two_rows_resolved "AZB" 1 "Z"%char);
      [reflexivity | exact Hin | reflexivity | reflexivity].
Defined.

Example stray_symbol_message :
  render_asset_grid stray_symbol =
  Raise (KeyError "Symbol 'Z' in x is not defined. Known symbols: A, B").
Proof. reflexivity. Qed.

(** C10: an asset whose grid has no row is never rasterised. The side
    computation [max(len(grid), *(...))] is then [max(0)], the call of [max]
    on one integer, which raises [TypeError]; only an error of the legend,
    resolved first, can pre-empt it. *)
Theorem C10_empty_grid_raises (asset : AssetDefinition) :
  grid asset = [] ->
  (exists e, render_asset_grid asset = Raise e) /\
  (forall resolved,
      normalise_legend (legend asset) = Ok resolved ->
      render_asset_grid asset = Raise (TypeError "'int' object is not iterable")).
Proof.
  intros Hnil. unfold render_asset_grid. rewrite Hnil. cbn [map].
  destruct (normalise_legend (legend asset)) as [resolved|e]; cbn.
  - split; [eauto|]. reflexivity.
  - split; [eauto|]. discriminate.
Qed.

Lemma C10_witness :
  grid no_rows = [] /\
  (exists e, render_asset_grid no_rows = Raise e) /\
  (forall resolved,
      normalise_legend (legend no_rows) = Ok resolved ->
      render_asset_grid no_rows = Raise (TypeError "'int' object is not iterable")).
Proof.
  split; [reflexivity|]. apply (C10_empty_grid_raises no_rows). reflexivity.
Defined.

(** ** Exporter *)

Lemma io_bind_ok {Path A B} (t : list (event Path)) (a : A) (k : A -> io Path B) :
  (t, Ok a) ≫= k = ((t ++ fst (k a))%list, snd (k a)).
Proof. unfold mbind, io_mbind, io_bind. now destruct (k a). Qed.

Lemma io_bind_raise {Path A B} (t : list (event Path)) (e : exception) (k : A -> io Path B) :
  (t, Raise e) ≫= k = (t, Raise e).
Proof. reflexivity. Qed.

Lemma for_each_print {Path A} (xs : list A) (line : A -> string) :
  for_each xs (fun x => print (line x)) = (map (fun x => Print (Path := Path) (line x)) xs, Ok tt).
Proof.
  induction xs as [|x xs IH]; [reflexivity|].
  unfold print in *. cbn [for_each map]. now rewrite io_bind_ok, IH.
Qed.

(** Sizes: positive, without repeats, ascending. *)
Lemma export_sizes_elem (sizes : list Z) (size : Z) :
  size ∈ export_sizes sizes <-> size ∈ sizes /\ 0 < size.
Proof.
  unfold export_sizes, sorted_int.
  rewrite merge_sort_Permutation, elem_of_elements, elem_of_list_to_set, list_elem_of_filter.
  tauto.
Qed.

Lemma StronglySorted_le_lt (l : list Z) :
  StronglySorted Z.le l -> NoDup l -> StronglySorted Z.lt l.
Proof.
  induction 1 as [|x l Hl IH Hx]; intros Hnd; constructor.
  - apply IH. now apply NoDup_cons in Hnd as [_ ?].
  - apply NoDup_cons in Hnd as [Hnotin _].
    apply Forall_forall. intros y Hy.
    eapply Forall_forall in Hx; [|exact Hy].
    assert (x <> y) by (intros ->; contradiction). lia.
Qed.

Lemma export_sizes_sorted (sizes : list Z) : StronglySorted Z.lt (export_sizes sizes).
Proof.
  unfold export_sizes, sorted_int. apply StronglySorted_le_lt.
  - apply StronglySorted_merge_sort; apply _.
  - rewrite merge_sort_Permutation. apply NoDup_elements.
Qed.

Example export_sizes_example : export_sizes [96; 48; 0; -3; 48; 7] = [7; 48; 96].
Proof. reflexivity. Qed.

Example str_example : map Py.str [7; 48; 96; 1024] = ["7"; "48"; "96"; "1024"].
Proof. reflexivity. Qed.

Section ExporterFacts.
Context {Path : Type}.
Variable truediv : Path -> string -> Path.
Variable path_str : Path -> string.
Variable resize : Image -> Z * Z -> Image.

Lemma save_ok (save_error : Path -> option exception) (image : Image) (path : Path) :
  save_error path = None -> save save_error image path = ([Save path image], Ok tt).
Proof. intros H. unfold save. now rewrite H. Qed.

Lemma for_each_save_print {A} (save_error : Path -> option exception) (xs : list A)
    (image : A -> Image) (path : A -> Path) (line : A -> string) :
  (forall p, save_error p = None) ->
  for_each xs (fun x => _ ← save save_error (image x) (path x); print (line x)) =
  (flat_map (fun x => [Save (path x) (image x); Print (line x)]) xs, Ok tt).
Proof.
  intros Hok. induction xs as [|x xs IH]; [reflexivity|].
  cbn [for_each flat_map]. rewrite IH, save_ok by done.
  unfold print. now rewrite !io_bind_ok.
Qed.

(** A rasterisation error ends the export before anything is reported. *)
Lemma export_asset_raise (save_error : Path -> option exception) (asset : AssetDefinition)
    (sizes : list Z) (out : Path) (include_base dry_run : bool) (e : exception) :
  render_asset_grid asset = Raise e ->
  export_asset truediv path_str resize save_error asset sizes out include_base dry_run =
  ([], Raise e).
Proof. intros Hrender. unfold export_asset, lift. now rewrite Hrender. Qed.

Lemma export_asset_dry (save_error : Path -> option exception) (asset : AssetDefinition)
    (base_image : Image) (sizes : list Z) (out : Path) (include_base : bool) :
  render_asset_grid asset = Ok base_image ->
  export_asset truediv path_str resize save_error asset sizes out include_base true =
  (map (fun target => Print ("[dry-run] " +:+ path_str (truediv out target.1)))
       (export_targets resize asset base_image sizes include_base),
   Ok PyNone).
Proof.
  intros Hrender. unfold export_asset, lift, export_targets. rewrite Hrender, io_bind_ok.
  cbn [fst snd app].
  rewrite (for_each_print (export_sizes sizes)
             (fun size => "[dry-run] " +:+
                path_str (truediv out (slug asset +:+ "_" +:+ Py.str size +:+ ".png")))).
  rewrite map_app, map_map.
  destruct include_base; unfold print; rewrite !io_bind_ok; cbn; now rewrite app_nil_r.
Qed.

Lemma export_asset_live (save_error : Path -> option exception) (asset : AssetDefinition)
    (base_image : Image) (sizes : list Z) (out : Path) (include_base : bool) :
  (forall p, save_error p = None) ->
  render_asset_grid asset = Ok base_image ->
  export_asset truediv path_str resize save_error asset sizes out include_base false =
  (flat_map (fun target => [Save (truediv out target.1) target.2;
                            Print ("Saved " +:+ path_str (truediv out target.1))])
            (export_targets resize asset base_image sizes include_base),
   Ok PyNone).
Proof.
  intros Hok Hrender. unfold export_asset, lift, export_targets.
  rewrite Hrender, io_bind_ok. cbn [fst snd app].
  rewrite (for_each_save_print save_error (export_sizes sizes)
             (fun size => resize base_image (size, size))
             (fun size => truediv out (slug asset +:+ "_" +:+ Py.str size +:+ ".png"))
             (fun size => "Saved " +:+
                path_str (truediv out (slug asset +:+ "_" +:+ Py.str size +:+ ".png"))))
    by done.
  rewrite flat_map_app.
  assert (forall (xs : list Z) (f : Z -> string * Image) (g : string * Image -> list (event Path)),
             flat_map g (map f xs) = flat_map (fun x => g (f x)) xs) as Hfm.
  { intros xs f g. induction xs as [|x xs IH]; cbn; [done|]. now rewrite IH. }
  rewrite Hfm. cbn [fst snd].
  destruct include_base.
  - rewrite save_ok by done. unfold print. rewrite !io_bind_ok. cbn. now rewrite app_nil_r.
  - rewrite !io_bind_ok. cbn. now rewrite app_nil_r.
Qed.

Lemma printed_prints {A} (xs : list A) (line : A -> string) :
  printed (map (fun x => Print (Path := Path) (line x)) xs) = map line xs.
Proof. induction xs as [|x xs IH]; cbn; [done|]. now f_equal. Qed.

Lemma saved_prints {A} (xs : list A) (line : A -> string) :
  saved (map (fun x => Print (Path := Path) (line x)) xs) = [].
Proof. induction xs as [|x xs IH]; cbn; done. Qed.

Lemma created_prints {A} (xs : list A) (line : A -> string) :
  created (map (fun x => Print (Path := Path) (line x)) xs) = [].
Proof. induction xs as [|x xs IH]; cbn; done. Qed.

Lemma printed_saves {A} (xs : list A) (path : A -> Path) (image : A -> Image)
    (line : A -> string) :
  printed (flat_map (fun x => [Save (path x) (image x); Print (line x)]) xs) = map line xs.
Proof. induction xs as [|x xs IH]; cbn; [done|]. now f_equal. Qed.

Lemma saved_saves {A} (xs : list A) (path : A -> Path) (image : A -> Image)
    (line : A -> string) :
  saved (flat_map (fun x => [Save (path x) (image x); Print (line x)]) xs) =
  map (fun x => (path x, image x)) xs.
Proof. induction xs as [|x xs IH]; cbn; [done|]. now f_equal. Qed.
End ExporterFacts.

Example export_dry_run_example :
  export_asset demo_join demo_str demo_resize demo_ok one_pixel [96; 48; 0; 48] "out" true true =
  ([Print "[dry-run] out/x_base.png"; Print "[dry-run] out/x_48.png";
    Print "[dry-run] out/x_96.png"], Ok PyNone).
Proof. reflexivity. Qed.

Example export_live_example :
  export_asset demo_join demo_str demo_resize demo_ok one_pixel [2] "out" false false =
  ([Save "out/x_2.png" one_pixel_image; Print "Saved out/x_2.png"], Ok PyNone).
Proof. reflexivity. Qed.

(** C4, as the code has it: [export_asset] takes the asset itself, which it
    rasterises first, and returns [None]. It reports on stdout instead.
    When the asset rasterises and the environment refuses no write, a dry
    run does nothing but print one line ["[dry-run] <path>"] per target
    artifact, in export order; a live run, for each target in that order,
    writes the file and then prints ["Saved <path>"], and does nothing
    else. *)
Theorem C4_export_reports_each_target {Path : Type} (truediv : Path -> string -> Path)
    (path_str : Path -> string) (resize : Image -> Z * Z -> Image)
    (save_error : Path -> option exception) (asset : AssetDefinition) (base_image : Image)
    (sizes : list Z) (out : Path) (include_base dry_run : bool) :
  render_asset_grid asset = Ok base_image ->
  (forall path, save_error path = None) ->
  let targets := export_targets resize asset base_image sizes include_base in
  export_asset truediv path_str resize save_error asset sizes out include_base dry_run =
  ((if dry_run
    then map (fun target => Print ("[dry-run] " +:+ path_str (truediv out target.1))) targets
    else flat_map (fun target => [Save (truediv out target.1) target.2;
                                  Print ("Saved " +:+ path_str (truediv out target.1))])
                  targets),
   Ok PyNone).
Proof.
  intros Hrender Hok targets. subst targets. destruct dry_run.
  - now apply export_asset_dry.
  - now apply export_asset_live.
Qed.

Lemma C4_witness :
  (render_asset_grid one_pixel = Ok one_pixel_image /\
   forall path, demo_ok path = None) /\
  export_asset demo_join demo_str demo_resize demo_ok one_pixel [2] "out" true false =
  ([Save "out/x_base.png" one_pixel_image; Print "Saved out/x_base.png";
    Save "out/x_2.png" one_pixel_image; Print "Saved out/x_2.png"],
   Ok PyNone).
Proof.
  split.
  - split; [reflexivity | intros path; reflexivity].
  - apply (C4_export_reports_each_target demo_join demo_str demo_resize demo_ok
             one_pixel one_pixel_image [2] "out" true false);
      [reflexivity | intros path; reflexivity].
Defined.

(** C4 as the specification words it fails: exporting one size of a
    one-pixel asset has one target artifact, and the call returns [None],
    not a list of one [(path, written)] pair. *)
Lemma C4_counterexample :
  let run := export_asset demo_join demo_str demo_resize demo_ok one_pixel [2] "out"
               false false in
  length (export_targets demo_resize one_pixel one_pixel_image [2] false) = 1%nat /\
  snd run = Ok PyNone /\
  forall items : list (string * bool), snd run <> Ok (PyList items).
Proof. cbn zeta. split_and!; [reflexivity | reflexivity | intros items; discriminate]. Qed.

(** C7: the sizes processed are the positive members of [sizes], each once,
    in ascending order; a live run writes [{slug}_base.png] (when asked) and
    then [{slug}_{size}.png] for each of them, every name joined to the
    output directory, and a dry run reports exactly those paths. *)
Theorem C7_sizes_and_file_names {Path : Type} (truediv : Path -> string -> Path)
    (path_str : Path -> string) (resize : Image -> Z * Z -> Image)
    (save_error : Path -> option exception) (asset : AssetDefinition) (base_image : Image)
    (sizes : list Z) (out : Path) (include_base : bool) :
  render_asset_grid asset = Ok base_image ->
  (forall path, save_error path = None) ->
  StronglySorted Z.lt (export_sizes sizes) /\
  (forall size, size ∈ export_sizes sizes <-> size ∈ sizes /\ 0 < size) /\
  saved (fst (export_asset truediv path_str resize save_error asset sizes out
                include_base false)) =
    ((if include_base then [(truediv out (slug asset +:+ "_base.png"), base_image)] else []) ++
     map (fun size => (truediv out (slug asset +:+ "_" +:+ Py.str size +:+ ".png"),
                       resize base_image (size, size)))
         (export_sizes sizes))%list /\
  printed (fst (export_asset truediv path_str resize save_error asset sizes out
                  include_base true)) =
    map (fun name => "[dry-run] " +:+ path_str (truediv out name))
        ((if include_base then [slug asset +:+ "_base.png"] else []) ++
         map (fun size => slug asset +:+ "_" +:+ Py.str size +:+ ".png")
             (export_sizes sizes))%list.
Proof.
  intros Hrender Hok. split_and!.
  - apply export_sizes_sorted.
  - apply export_sizes_elem.
  - rewrite (export_asset_live _ _ _ _ _ base_image) by done. cbn [fst].
    rewrite (saved_saves _ (fun target => truediv out target.1) snd
               (fun target => "Saved " +:+ path_str (truediv out target.1))).
    unfold export_targets. rewrite map_app, map_map. now destruct include_base.
  - rewrite (export_asset_dry _ _ _ _ _ base_image) by done. cbn [fst].
    rewrite printed_prints. unfold export_targets.
    rewrite !map_app, !map_map. now destruct include_base.
Qed.

Lemma C7_witness :
  (render_asset_grid one_pixel = Ok one_pixel_image /\
   forall path, demo_ok path = None) /\
  StronglySorted Z.lt (export_sizes [96; 48; 0; 48]) /\
  (forall size, size ∈ export_sizes [96; 48; 0; 48] <-> size ∈ [96; 48; 0; 48] /\ 0 < size) /\
  saved (fst (export_asset demo_join demo_str demo_resize demo_ok one_pixel
                [96; 48; 0; 48] "out" true false)) =
    ([(demo_join "out" (slug one_pixel +:+ "_base.png"), one_pixel_image)] ++
     map (fun size => (demo_join "out" (slug one_pixel +:+ "_" +:+ Py.str size +:+ ".png"),
                       demo_resize one_pixel_image (size, size)))
         (export_sizes [96; 48; 0; 48]))%list /\
  printed (fst (export_asset demo_join demo_str demo_resize demo_ok one_pixel
                  [96; 48; 0; 48] "out" true true)) =
    map (fun name => "[dry-run] " +:+ demo_str (demo_join "out" name))
        ([slug one_pixel +:+ "_base.png"] ++
         map (fun size => slug one_pixel +:+ "_" +:+ Py.str size +:+ ".png")
             (export_sizes [96; 48; 0; 48]))%list.
Proof.
  split.
  - split; [reflexivity | intros path; reflexivity].
  - apply (C7_sizes_and_file_names demo_join demo_str demo_resize demo_ok
             one_pixel one_pixel_image [96; 48; 0; 48] "out" true);
      [reflexivity | intros path; reflexivity].
Defined.

(** ** Driver *)

Lemma printed_app {Path} (t1 t2 : list (event Path)) :
  printed (t1 ++ t2) = (printed t1 ++ printed t2)%list.
Proof. apply omap_app. Qed.

Lemma saved_app {Path} (t1 t2 : list (event Path)) :
  saved (t1 ++ t2) = (saved t1 ++ saved t2)%list.
Proof. apply omap_app. Qed.

Lemma created_app {Path} (t1 t2 : list (event Path)) :
  created (t1 ++ t2) = (created t1 ++ created t2)%list.
Proof. apply omap_app. Qed.

Lemma created_saves {Path A} (xs : list A) (path : A -> Path) (image : A -> Image)
    (line : A -> string) :
  created (flat_map (fun x => [Save (path x) (image x); Print (line x)]) xs) = [].
Proof. induction xs as [|x xs IH]; cbn; done. Qed.

(** The loop over the catalogue, run dry in any environment and run live in
    an environment that refuses no write, in lockstep. *)
Lemma for_each_asset_dry_live {Path : Type} (truediv : Path -> string -> Path)
    (path_str : Path -> string) (resize : Image -> Z * Z -> Image)
    (save_error : Path -> option exception) (sizes : list Z) (out : Path)
    (include_base : bool) (assets : list AssetDefinition) :
  let loop flag refuse :=
    for_each assets (fun asset =>
      _ ← export_asset truediv path_str resize refuse asset sizes out include_base flag;
      mret tt) in
  let dry := loop true save_error in
  let live := loop false (fun _ => None) in
  saved (fst dry) = [] /\ created (fst dry) = [] /\ created (fst live) = [] /\
  printed (fst dry) = map (fun file => "[dry-run] " +:+ path_str file.1) (saved (fst live)) /\
  snd dry = snd live.
Proof.
  cbn zeta. induction assets as [|asset rest IH]; [done|].
  cbn [for_each].
  destruct (render_asset_grid asset) as [base_image|e] eqn:Hrender.
  - rewrite (export_asset_dry _ _ _ _ _ base_image) by done.
    rewrite (export_asset_live _ _ _ _ _ base_image) by done.
    rewrite !io_bind_ok. cbn [fst snd mret io_mret].
    rewrite !io_bind_ok. cbn [fst snd].
    rewrite !app_nil_r, !saved_app, !created_app, !printed_app.
    destruct IH as (IH1 & IH2 & IH3 & IH4 & IH5).
    rewrite IH1, IH2, IH3, IH4, IH5.
    rewrite saved_prints, created_prints, printed_prints.
    rewrite (created_saves _ (fun target => truediv out target.1) snd
               (fun target => "Saved " +:+ path_str (truediv out target.1))).
    rewrite (saved_saves _ (fun target => truediv out target.1) snd
               (fun target => "Saved " +:+ path_str (truediv out target.1))).
    rewrite map_app, map_map. done.
  - rewrite !(export_asset_raise _ _ _ _ _ _ _ _ _ e) by done.
    rewrite !io_bind_raise. done.
Qed.

(** The directory call writes no file and prints nothing, and completes
    when the environment refuses no creation. *)
Lemma mkdir_parents_quiet {Path} (is_dir : Path -> bool)
    (mkdir_error : Path -> option exception) (chain : list Path) :
  saved (fst (mkdir_parents is_dir mkdir_error chain)) = [] /\
  printed (fst (mkdir_parents is_dir mkdir_error chain)) = [].
Proof.
  induction chain as [|path above [IHs IHp]]; [done|].
  cbn [mkdir_parents]. destruct (is_dir path); [done|].
  destruct (mkdir_parents is_dir mkdir_error above) as [t [[]|e]]; cbn [fst] in *.
  - rewrite io_bind_ok. unfold os_mkdir.
    destruct (mkdir_error path); cbn [fst]; rewrite saved_app, printed_app, IHs, IHp; done.
  - now rewrite io_bind_raise.
Qed.

Lemma mkdir_parents_unrefused {Path} (is_dir : Path -> bool) (chain : list Path) :
  snd (mkdir_parents is_dir (fun _ => None) chain) = Ok tt.
Proof.
  induction chain as [|path above IH]; [done|].
  cbn [mkdir_parents]. destruct (is_dir path); [done|].
  destruct (mkdir_parents is_dir (fun _ => None) above) as [t r]. cbn [snd] in IH. subst r.
  now rewrite io_bind_ok.
Qed.

(** C8: in a dry run, whatever the catalogue and the flags, no file is
    written and no directory is created; and the paths it reports are, in
    order, the paths of the files that the live run with the same flags
    writes when no write is refused. Both runs end the same way. *)
Theorem C8_dry_run_writes_nothing {Path : Type} (truediv : Path -> string -> Path)
    (path_str : Path -> string) (resize : Image -> Z * Z -> Image)
    (save_error : Path -> option exception) (parents : Path -> list Path)
    (is_dir : Path -> bool) (mkdir_error : Path -> option exception)
    (assets : list AssetDefinition) (args : Namespace Path) :
  dry_run args = true ->
  let dry := main truediv path_str resize save_error parents is_dir mkdir_error assets args in
  let live := main truediv path_str resize (fun _ => None) parents is_dir (fun _ => None)
                assets
                (set_dry_run false args) in
  saved (fst dry) = [] /\ created (fst dry) = [] /\
  printed (fst dry) = map (fun file => "[dry-run] " +:+ path_str file.1) (saved (fst live)) /\
  snd dry = snd live.
Proof.
  intros Hdry dry live. subst dry live. unfold main.
  rewrite Hdry. cbn [negb set_dry_run dry_run output_dir sizes include_base mkdir].
  pose proof (for_each_asset_dry_live truediv path_str resize save_error (sizes args)
                (output_dir args) (include_base args) assets) as Hloop.
  cbn zeta in Hloop. destruct Hloop as (H1 & H2 & H3 & H4 & H5).
  destruct (for_each assets (fun asset => _ ← export_asset truediv path_str resize save_error
              asset (sizes args) (output_dir args) (include_base args) true; mret tt))
    as [td [[]|ed]] eqn:Ed;
  destruct (for_each assets (fun asset => _ ← export_asset truediv path_str resize
              (fun _ => None) asset (sizes args) (output_dir args) (include_base args) false;
              mret tt))
    as [tl [[]|el]] eqn:El; cbn [fst snd] in *; try discriminate;
  pose proof (mkdir_parents_quiet is_dir (fun _ => None)
                (output_dir args :: parents (output_dir args))) as [Hquiet _];
  pose proof (mkdir_parents_unrefused is_dir
                (output_dir args :: parents (output_dir args))) as Hcall;
  fold (mkdir parents is_dir (fun _ => None) (output_dir args)) in Hquiet, Hcall;
  destruct (mkdir parents is_dir (fun _ => None) (output_dir args)) as [tm rm];
  cbn [fst snd] in Hquiet, Hcall; subst rm;
  unfold mret, mbind, io_mret, io_mbind, io_bind; cbn [fst snd app];
  rewrite ?app_nil_r, ?saved_app, ?Hquiet; cbn [app];
  split_and!; (done || congruence).
Qed.

Lemma C8_witness :
  dry_run demo_args = true /\
  let dry := main demo_join demo_str demo_resize demo_ok demo_parents demo_is_dir demo_ok ASSETS demo_args in
  let live := main demo_join demo_str demo_resize (fun _ => None) demo_parents demo_is_dir
                (fun _ => None) ASSETS
                (set_dry_run false demo_args) in
  saved (fst dry) = [] /\ created (fst dry) = [] /\
  printed (fst dry) = map (fun file => "[dry-run] " +:+ demo_str file.1) (saved (fst live)) /\
  snd dry = snd live.
Proof.
  split; [reflexivity|].
  apply (C8_dry_run_writes_nothing demo_join demo_str demo_resize demo_ok demo_parents demo_is_dir demo_ok
           ASSETS demo_args).
  reflexivity.
Defined.

Example main_dry_run_example :
  printed (fst (main demo_join demo_str demo_resize demo_ok demo_parents demo_is_dir demo_ok ASSETS demo_args)) =
  ["[dry-run] out/mind-fragment-core_base.png";
   "[dry-run] out/mind-fragment-core_48.png";
   "[dry-run] out/mind-fragment-core_96.png";
   "[dry-run] out/worker-m0-drone_base.png";
   "[dry-run] out/worker-m0-drone_48.png";
   "[dry-run] out/worker-m0-drone_96.png";
   "[dry-run] out/nestled-sporeling_base.png";
   "[dry-run] out/nestled-sporeling_48.png";
   "[dry-run] out/nestled-sporeling_96.png"].
Proof. reflexivity. Qed.

(** ** Binary64 arithmetic

    Facts about the rounding functions that specify the float operations,
    up to: [opacity * 255 + 0.5] is a finite float for every opacity in
    the unit interval. *)

Module Binary64.

Lemma fexp64 (z : Z) : fexp prec emax z = Z.max (z - 53) (-1074).
Proof. reflexivity. Qed.

Lemma pow2_pos (k : Z) : 0 <= k -> 0 < 2 ^ k.
Proof. intros. apply Z.pow_pos_nonneg; lia. Qed.

Lemma pow2_split (a b : Z) : 0 <= a -> 0 <= b -> 2 ^ (a + b) = 2 ^ a * 2 ^ b.
Proof. intros. apply Z.pow_add_r; lia. Qed.

Lemma digits2_pos_bound (p : positive) :
  forall k, Zpos p < 2 ^ k -> Zpos (digits2_pos p) <= k.
Proof.
  induction p as [p IH|p IH|]; intros k Hk.
  - assert (0 < k) as Hk0.
    { destruct (Z_lt_le_dec 0 k); [done|].
      destruct (Z.eq_dec k 0) as [->|]; [cbn in Hk; lia|].
      rewrite Z.pow_neg_r in Hk by lia. lia. }
    cbn [digits2_pos]. rewrite Pos2Z.inj_succ.
    specialize (IH (k - 1)).
    replace k with (1 + (k - 1)) in Hk by lia.
    rewrite pow2_split in Hk by lia. change (2 ^ 1) with 2 in Hk.
    assert (Z.pos p < 2 ^ (k - 1)) by lia. specialize (IH H). lia.
  - assert (0 < k) as Hk0.
    { destruct (Z_lt_le_dec 0 k); [done|].
      destruct (Z.eq_dec k 0) as [->|]; [cbn in Hk; lia|].
      rewrite Z.pow_neg_r in Hk by lia. lia. }
    cbn [digits2_pos]. rewrite Pos2Z.inj_succ.
    specialize (IH (k - 1)).
    replace k with (1 + (k - 1)) in Hk by lia.
    rewrite pow2_split in Hk by lia. change (2 ^ 1) with 2 in Hk.
    assert (Z.pos p < 2 ^ (k - 1)) by lia. specialize (IH H). lia.
  - destruct (Z_lt_le_dec 0 k); [cbn; lia|].
    destruct (Z.eq_dec k 0) as [->|]; [cbn in Hk; lia|].
    rewrite Z.pow_neg_r in Hk by lia. lia.
Qed.

Lemma Zdigits2_bound (x k : Z) : 0 <= k -> 0 <= x < 2 ^ k -> Zdigits2 x <= k.
Proof.
  intros Hk [Hx0 Hx]. destruct x as [|p|p]; cbn; [lia| |lia].
  now apply digits2_pos_bound.
Qed.

Lemma shr_1_half (mrs : shr_record) :
  0 <= shr_m mrs -> shr_m (shr_1 mrs) = shr_m mrs / 2.
Proof.
  destruct mrs as [m r s]. cbn [shr_m]. intros Hm.
  destruct m as [|[p|p|]|p]; cbn [shr_1 shr_m]; [reflexivity| | |reflexivity|lia].
  - rewrite Pos2Z.inj_xI. apply Z.div_unique with 1; lia.
  - rewrite Pos2Z.inj_xO. apply Z.div_unique with 0; lia.
Qed.

Lemma pow2_xO (p : positive) : 2 ^ Zpos p~0 = 2 ^ Zpos p * 2 ^ Zpos p.
Proof. rewrite Pos2Z.inj_xO, <- pow2_split by lia. f_equal. lia. Qed.

Lemma pow2_xI (p : positive) : 2 ^ Zpos p~1 = 2 * (2 ^ Zpos p * 2 ^ Zpos p).
Proof.
  rewrite Pos2Z.inj_xI. replace (2 * Z.pos p + 1) with (1 + (Z.pos p + Z.pos p)) by lia.
  rewrite pow2_split, pow2_split by lia. reflexivity.
Qed.

Lemma iter_shr_1 (p : positive) :
  forall mrs, 0 <= shr_m mrs ->
    shr_m (SpecFloat.iter_pos shr_1 p mrs) = shr_m mrs / 2 ^ Zpos p.
Proof.
  assert (forall x, 0 <= x -> 0 <= x / 2) as Hhalf.
  { intros. apply Z.div_pos; lia. }
  assert (forall x k, 0 <= x -> 0 <= x / 2 ^ Zpos k) as Hdiv.
  { intros. apply Z.div_pos; [lia|]. apply pow2_pos; lia. }
  assert (forall k, 0 < 2 ^ Zpos k) as Hpow by (intros; apply pow2_pos; lia).
  induction p as [p IH|p IH|]; intros mrs Hm; cbn [SpecFloat.iter_pos].
  - assert (0 <= shr_m (shr_1 mrs)) as H1 by (rewrite shr_1_half by done; auto).
    assert (0 <= shr_m (SpecFloat.iter_pos shr_1 p (shr_1 mrs))) as H2
      by (rewrite IH by done; auto).
    rewrite IH, IH, shr_1_half by done.
    pose proof (Hpow p).
    rewrite !Z.div_div by lia. now rewrite pow2_xI.
  - assert (0 <= shr_m (SpecFloat.iter_pos shr_1 p mrs)) as H2
      by (rewrite IH by done; auto).
    rewrite IH, IH by done.
    pose proof (Hpow p).
    rewrite !Z.div_div by lia. now rewrite pow2_xO.
  - rewrite shr_1_half by done. reflexivity.
Qed.

Lemma shr_fexp_spec (m e : Z) (l : location) :
  0 <= m ->
  let '(mrs, e') := shr_fexp prec emax m e l in
  e' = Z.max e (fexp prec emax (Zdigits2 m + e)) /\
  shr_m mrs = m / 2 ^ (e' - e).
Proof.
  intros Hm. unfold shr_fexp, shr.
  assert (shr_m (shr_record_of_loc m l) = m) as Hrec.
  { destruct l as [|[]]; reflexivity. }
  destruct (fexp prec emax (Zdigits2 m + e) - e) as [|n|n] eqn:En.
  - split; [lia|]. replace (e - e) with 0 by lia. rewrite Hrec. cbn. now rewrite Z.div_1_r.
  - split; [lia|]. rewrite iter_shr_1 by (rewrite Hrec; done). rewrite Hrec.
    f_equal. f_equal. lia.
  - split; [lia|]. replace (e - e) with 0 by lia. rewrite Hrec. cbn. now rewrite Z.div_1_r.
Qed.

Lemma round_nearest_even_bounds (m : Z) (l : location) :
  m <= round_nearest_even m l <= m + 1.
Proof. destruct l as [|[]]; cbn; try lia. destruct (Z.even m); lia. Qed.

Lemma div_pow2_bound (m a b : Z) :
  0 <= a -> 0 <= b -> 0 <= m < 2 ^ (a + b) -> 0 <= m / 2 ^ a < 2 ^ b.
Proof.
  intros Ha Hb [Hm0 Hm]. pose proof (pow2_pos a Ha). split.
  - apply Z.div_pos; lia.
  - apply Z.div_lt_upper_bound; [lia|]. now rewrite <- pow2_split.
Qed.

(** Rounding a positive mantissa whose value lies below [2 ^ M], with [M]
    in the exponent range, never overflows. *)
Lemma binary_round_aux_finite (s : bool) (m : positive) (e M : Z) (l : location) :
  -1074 <= M <= 1023 -> e <= M -> e <= 971 ->
  Zpos m < 2 ^ (M - e) ->
  match binary_round_aux prec emax s (Zpos m) e l with
  | S754_zero _ => True
  | S754_finite s' m' e' => s' = s /\ e' <= M + 1 /\ Zpos m' < 2 ^ (M + 1 - e')
  | _ => False
  end.
Proof.
  intros HM HeM He Hm. unfold binary_round_aux.
  pose proof (shr_fexp_spec (Zpos m) e l) as H1.
  destruct (shr_fexp prec emax (Z.pos m) e l) as [mrs1 e1].
  destruct H1 as [He1 Hm1]; [lia|].
  assert (Zdigits2 (Zpos m) <= M - e) as Hd by (apply Zdigits2_bound; lia).
  rewrite fexp64 in He1.
  assert (e <= e1 <= M) as He1' by lia.
  assert (0 <= shr_m mrs1 < 2 ^ (M - e1)) as Hm1'.
  { rewrite Hm1. apply div_pow2_bound; try lia.
    replace (e1 - e + (M - e1)) with (M - e) by lia. lia. }
  set (m2 := round_nearest_even (shr_m mrs1) (loc_of_shr_record mrs1)).
  pose proof (round_nearest_even_bounds (shr_m mrs1) (loc_of_shr_record mrs1)) as Hm2.
  fold m2 in Hm2.
  assert (0 <= m2 < 2 ^ (M + 1 - e1)) as Hm2'.
  { replace (M + 1 - e1) with (1 + (M - e1)) by lia.
    rewrite pow2_split by lia. change (2 ^ 1) with 2. lia. }
  pose proof (shr_fexp_spec m2 e1 loc_Exact) as H2.
  destruct (shr_fexp prec emax m2 e1 loc_Exact) as [mrs2 e2].
  destruct H2 as [He2 Hm3]; [lia|].
  assert (Zdigits2 m2 <= M + 1 - e1) as Hd2 by (apply Zdigits2_bound; lia).
  rewrite fexp64 in He2.
  assert (e1 <= e2 <= M + 1) as He2' by lia.
  assert (0 <= shr_m mrs2 < 2 ^ (M + 1 - e2)) as Hm3'.
  { rewrite Hm3. apply div_pow2_bound; try lia.
    replace (e2 - e1 + (M + 1 - e2)) with (M + 1 - e1) by lia. lia. }
  destruct (shr_m mrs2) as [|m3|m3]; [done| |lia].
  assert ((e2 <=? emax - prec) = true) as -> by (apply Z.leb_le; change (emax - prec) with 971; lia).
  split_and!; [done|lia|lia].
Qed.

Lemma iter_xO (d mx : positive) : Zpos (Pos.iter xO mx d) = Zpos mx * 2 ^ Zpos d.
Proof.
  induction d as [|d IH] using Pos.peano_ind.
  - cbn. lia.
  - rewrite Pos.iter_succ, Pos2Z.inj_xO, IH, Pos2Z.inj_succ.
    unfold Z.succ. rewrite (Z.add_comm _ 1), pow2_split by lia. change (2 ^ 1) with 2. lia.
Qed.

Lemma shl_align_spec (mx : positive) (ex ex' : Z) :
  let '(mx', ex'') := shl_align mx ex ex' in
  ex'' = Z.min ex ex' /\ Zpos mx' = Zpos mx * 2 ^ (ex - ex'').
Proof.
  unfold shl_align. destruct (ex' - ex) as [|d|d] eqn:Ed.
  - split; [lia|]. replace (ex - ex) with 0 by lia. cbn. lia.
  - split; [lia|]. replace (ex - ex) with 0 by lia. cbn. lia.
  - split; [lia|]. rewrite iter_xO. f_equal. f_equal. lia.
Qed.

Lemma binary_round_finite (m : positive) (e M : Z) :
  -1074 <= M <= 1023 -> e <= M -> e <= 971 ->
  Zpos m < 2 ^ (M - e) ->
  match binary_round prec emax false m e with
  | S754_zero _ => True
  | S754_finite s' m' e' => s' = false /\ e' <= M + 1 /\ Zpos m' < 2 ^ (M + 1 - e')
  | _ => False
  end.
Proof.
  intros HM HeM He Hm. unfold binary_round.
  pose proof (shl_align_spec m e (fexp prec emax (Z.pos (digits2_pos m) + e))) as Hal.
  destruct (shl_align m e _) as [mz ez]. destruct Hal as [Hez Hmz].
  apply binary_round_aux_finite; try lia.
  rewrite Hmz. replace (M - ez) with ((M - e) + (e - ez)) by lia.
  rewrite pow2_split by lia. pose proof (pow2_pos (e - ez)). nia.
Qed.

Lemma SFleb_finite (m m' : positive) (e e' : Z) :
  SFleb (S754_finite false m e) (S754_finite false m' e') =
  match e ?= e' with
  | Lt => true
  | Gt => false
  | Eq => match (m ?= m')%positive with Gt => false | _ => true end
  end.
Proof. unfold SFleb, SFcompare. now destruct (e ?= e'). Qed.

Lemma digits2_pos_size (m : positive) : digits2_pos m = Pos.size m.
Proof. induction m; cbn; congruence. Qed.

Lemma unit_interval_shape (x : spec_float) :
  valid_binary x = true ->
  SFltb (S754_zero false) x = true -> SFleb x sf_one = true ->
  exists m e, x = S754_finite false m e /\ e <= -52 /\ Zpos m < 2 ^ 53.
Proof.
  intros Hvalid Hpos Hle.
  destruct x as [s|s| |s m e]; try discriminate.
  - destruct s; discriminate.
  - destruct s; [discriminate|].
    exists m, e. split; [done|].
    cbn in Hvalid. unfold bounded, canonical_mantissa in Hvalid.
    apply andb_prop in Hvalid as [Hcanon _]. apply Z.eqb_eq in Hcanon.
    rewrite fexp64 in Hcanon.
    unfold sf_one in Hle. rewrite SFleb_finite in Hle.
    split.
    + destruct (e ?= -52) eqn:Ecmp; [| |discriminate].
      * apply Z.compare_eq in Ecmp. lia.
      * pose proof (proj1 (Z.compare_lt_iff _ _) Ecmp). lia.
    + destruct (Z_lt_le_dec (Zpos m) (2 ^ 53)) as [|Hge]; [done|exfalso].
      pose proof (Pos.size_gt m) as Hsize.
      rewrite digits2_pos_size in Hcanon.
      apply Pos2Z.pos_lt_pos in Hsize. rewrite Pos2Z.inj_pow in Hsize.
      assert (2 ^ Zpos (Pos.size m) <= 2 ^ 53) by (apply Z.pow_le_mono_r; lia). lia.
Qed.

Lemma product_bound (m : positive) (e : Z) :
  e <= -52 -> Zpos m < 2 ^ 53 ->
  Zpos (m * 8972014882652160) < 2 ^ (9 - (e + -45)).
Proof.
  intros He Hm. rewrite Pos2Z.inj_mul.
  apply Z.lt_le_trans with (2 ^ 53 * 2 ^ 53).
  - apply Z.mul_lt_mono_nonneg; [lia|done|lia|reflexivity].
  - rewrite <- pow2_split by lia. apply Z.pow_le_mono_r; lia.
Qed.

Lemma sum_bound (my a b : positive) (ey ez : Z) :
  ez = Z.min ey (-53) -> ey <= 10 -> Zpos my < 2 ^ (10 - ey) ->
  Zpos a = Zpos my * 2 ^ (ey - ez) -> Zpos b = 2 ^ 52 * 2 ^ (-53 - ez) ->
  Zpos (a + b) < 2 ^ (11 - ez).
Proof.
  intros Hez Hey Hmy Ha Hb. rewrite Pos2Z.inj_add.
  assert (Zpos a < 2 ^ (10 - ez)) as HA.
  { rewrite Ha. replace (10 - ez) with ((10 - ey) + (ey - ez)) by lia.
    rewrite pow2_split by lia. apply Z.mul_lt_mono_pos_r; [apply pow2_pos; lia|done]. }
  assert (Zpos b <= 2 ^ (10 - ez)) as HB.
  { rewrite Hb, <- pow2_split by lia. apply Z.pow_le_mono_r; lia. }
  replace (11 - ez) with (1 + (10 - ez)) by lia. rewrite pow2_split by lia.
  change (2 ^ 1) with 2. lia.
Qed.

(** The float [opacity * 255 + 0.5] is finite and not negative for every
    opacity in the unit interval. *)
Lemma alpha_sum_finite (x : spec_float) :
  valid_binary x = true ->
  SFltb (S754_zero false) x = true -> SFleb x sf_one = true ->
  match SF64add (SF64mul x sf_255) sf_half with
  | S754_zero _ => True
  | S754_finite s _ _ => s = false
  | _ => False
  end.
Proof.
  intros Hvalid Hpos Hle.
  destruct (unit_interval_shape x Hvalid Hpos Hle) as (m & e & -> & He & Hm).
  unfold SF64mul, SFmul, sf_255. cbn [xorb].
  pose proof (binary_round_aux_finite false (m * 8972014882652160) (e + -45) 9 loc_Exact) as Hmul.
  pose proof (product_bound m e He Hm) as Hprod.
  destruct (binary_round_aux prec emax false _ _ _) as [sy|sy| |sy my ey];
    [reflexivity | apply Hmul; lia | apply Hmul; lia |].
  destruct Hmul as (-> & Hey & Hmy); [lia..|].
  unfold SF64add, SFadd, sf_half. cbn [cond_Zopp].
  pose proof (shl_align_spec my ey (Z.min ey (-53))) as Ha.
  pose proof (shl_align_spec 4503599627370496 (-53) (Z.min ey (-53))) as Hb.
  destruct (shl_align my ey _) as [a ea]. destruct (shl_align 4503599627370496 _ _) as [b eb].
  destruct Ha as [Hea Ha]. destruct Hb as [Heb Hb]. cbn [fst].
  change (Z.pos a + Z.pos b) with (Z.pos (a + b)). cbn [binary_normalize].
  set (ez := Z.min ey (-53)) in *.
  assert (Zpos (a + b) < 2 ^ (11 - ez)) as Hsum.
  { apply (sum_bound my a b ey ez); try done; try lia.
    - rewrite Ha. f_equal. f_equal. lia.
    - rewrite Hb. f_equal. f_equal. lia. }
  pose proof (binary_round_finite (a + b) ez 11) as Hadd.
  destruct (binary_round prec emax false (a + b) ez) as [sz|sz| |sz mz ez'];
    [done | apply Hadd; lia | apply Hadd; lia |].
  apply Hadd; lia.
Qed.

End Binary64.

(** ** Resolved pixels *)

Lemma all_ascii_complete (c : ascii) : In c all_ascii.
Proof.
  unfold all_ascii. rewrite <- (ascii_nat_embedding c). apply in_map, in_seq.
  pose proof (nat_ascii_bounded c). lia.
Qed.

Lemma hex_pairs_agree :
  forallb (fun hi => forallb (fun lo => hex_pair_agrees hi lo) all_ascii) all_ascii = true.
Proof. vm_compute. reflexivity. Qed.

Lemma parse16_hex_pair (hi lo : ascii) (v : Z) :
  hex_pair hi lo = Some v -> Py.int16 (String hi (String lo EmptyString)) = Ok v.
Proof.
  intros Hpair. pose proof hex_pairs_agree as Hall.
  rewrite forallb_forall in Hall. specialize (Hall hi (all_ascii_complete hi)).
  rewrite forallb_forall in Hall. specialize (Hall lo (all_ascii_complete lo)).
  unfold hex_pair_agrees in Hall. rewrite Hpair in Hall. unfold Py.int16.
  destruct (Py.parse16 _) as [w|]; [|discriminate].
  apply Z.eqb_eq in Hall. now subst.
Qed.

Lemma hex_pair_not_hash (lo : ascii) : hex_pair "#" lo = None.
Proof. reflexivity. Qed.

Lemma lstrip_six_digits (s : string) (rgb : RGB) :
  six_hex_digits s = Some rgb -> Py.lstrip "#" s = s.
Proof.
  destruct s as [|a rest]; [discriminate|]. intros Hsix.
  cbn [Py.lstrip Py.mem].
  destruct (Ascii.eqb_spec a "#") as [->|]; [|reflexivity].
  destruct rest as [|b [|c [|d [|e [|f [|]]]]]]; discriminate.
Qed.

Lemma hex_to_rgb_stripped (s t : string) (rgb : RGB) :
  Py.lstrip "#" s = t -> six_hex_digits t = Some rgb -> hex_to_rgb s = Ok rgb.
Proof.
  intros Hstrip Hsix. unfold hex_to_rgb. rewrite Hstrip.
  destruct t as [|a [|b [|c [|d [|e [|f [|]]]]]]]; try discriminate.
  cbn [six_hex_digits] in Hsix.
  destruct (hex_pair a b) as [r|] eqn:Hr; [|discriminate].
  destruct (hex_pair c d) as [g|] eqn:Hg; [|discriminate].
  destruct (hex_pair e f) as [bl|] eqn:Hb; [|discriminate].
  cbn in Hsix. inversion Hsix; subst.
  rewrite bool_decide_eq_false_2 by (intros Hlen; apply Hlen; reflexivity).
  cbn [Py.slice substring].
  rewrite (parse16_hex_pair _ _ _ Hr), rbind_ok.
  rewrite (parse16_hex_pair _ _ _ Hg), rbind_ok.
  rewrite (parse16_hex_pair _ _ _ Hb), rbind_ok. reflexivity.
Qed.

(** A colour that the specification accepts is parsed to its channels. *)
Lemma hex_to_rgb_triplet (s : string) (rgb : RGB) :
  hex_triplet s = Some rgb -> hex_to_rgb s = Ok rgb.
Proof.
  destruct s as [|c rest]; [discriminate|]. cbn [hex_triplet].
  destruct (Ascii.eqb_spec c "#") as [->|Hc]; intros Hsix.
  - apply (hex_to_rgb_stripped _ rest); [|done].
    cbn [Py.lstrip Py.mem]. change (Ascii.eqb "#" "#") with true. cbn iota.
    now apply lstrip_six_digits with rgb.
  - apply (hex_to_rgb_stripped _ (String c rest)); [|done].
    now apply lstrip_six_digits with rgb.
Qed.

Lemma hex_triplet_range (s : string) (r g b : Z) :
  hex_triplet s = Some (r, g, b) -> 0 <= r <= 255 /\ 0 <= g <= 255 /\ 0 <= b <= 255.
Proof.
  assert (forall hi lo v, hex_pair hi lo = Some v -> 0 <= v <= 255) as Hpair.
  { intros hi lo v. unfold hex_pair, Py.digit16.
    repeat match goal with |- context [if ?c then _ else _] => destruct c eqn:? end;
      cbn; intros H; try discriminate; inversion H; lia. }
  assert (forall t, six_hex_digits t = Some (r, g, b) ->
                    0 <= r <= 255 /\ 0 <= g <= 255 /\ 0 <= b <= 255) as Hsix.
  { intros t. destruct t as [|a1 [|a2 [|a3 [|a4 [|a5 [|a6 [|]]]]]]]; try discriminate.
    cbn [six_hex_digits]. intros Ht.
    destruct (hex_pair a1 a2) as [v1|] eqn:E1; [|discriminate].
    destruct (hex_pair a3 a4) as [v2|] eqn:E2; [|discriminate].
    destruct (hex_pair a5 a6) as [v3|] eqn:E3; [|discriminate].
    cbn in Ht. inversion Ht; subst. split_and!; eapply Hpair; eauto. }
  destruct s as [|c rest]; [discriminate|]. cbn [hex_triplet].
  destruct (Ascii.eqb c "#"); apply Hsix.
Qed.

(** Opacities in the unit interval. *)
Lemma positive_not_le_zero (opacity : float) :
  (0 <? opacity)%float = true -> (opacity <=? 0)%float = false.
Proof.
  rewrite ltb_spec, leb_spec. change (Prim2SF 0) with (S754_zero false).
  destruct (Prim2SF opacity) as [s|s| |s m e]; try discriminate; destruct s; done.
Qed.

Lemma int_of_float_alpha (opacity : float) :
  (0 <? opacity)%float = true -> (opacity <=? 1)%float = true ->
  exists alpha, 0 <= alpha /\ Py.int_of_float (opacity * 255 + 0.5)%float = Ok alpha.
Proof.
  intros Hpos Hle. rewrite ltb_spec in Hpos. rewrite leb_spec in Hle.
  pose proof (Binary64.alpha_sum_finite (Prim2SF opacity) (Prim2SF_valid opacity) Hpos Hle)
    as Hfinite.
  unfold Py.int_of_float. rewrite add_spec, mul_spec.
  change (Prim2SF 255) with sf_255. change (Prim2SF 0.5) with sf_half.
  destruct (SF64add _ _) as [s|s| |s m e]; try done.
  - exists 0. done.
  - subst s. exists (Z.shiftl (Zpos m) e). split; [|reflexivity].
    apply Z.shiftl_nonneg. lia.
Qed.

Example alpha_of_catalogue_opacities :
  map (fun opacity => to_rgba (Some "#1F2A44") opacity)
      [1.0; 0.6; 0.4; 0.3; 0.25]%float =
  map (fun alpha => Ok (31, 42, 68, alpha)) [255; 153; 102; 77; 64].
Proof. reflexivity. Qed.

(** C5, as the code has it: for a colour of six hexadecimal digits (after
    an optional hash) and an opacity above 0 and at most 1, the entry
    resolves; its RGB channels are the parsed triplet and its alpha is
    [int(opacity * 255 + 0.5)], computed in binary64 arithmetic and never
    negative, clamped to [0, 255]. *)
Theorem C5_resolved_pixel (hex_colour : string) (r g b : Z) (opacity : float) :
  hex_triplet hex_colour = Some (r, g, b) ->
  (0 <? opacity)%float = true -> (opacity <=? 1)%float = true ->
  exists alpha,
    Py.int_of_float (opacity * 255 + 0.5)%float = Ok alpha /\ 0 <= alpha /\
    to_rgba (Some hex_colour) opacity = Ok (r, g, b, Z.max 0 (Z.min alpha 255)).
Proof.
  intros Hcolour Hpos Hle.
  destruct (int_of_float_alpha opacity Hpos Hle) as (alpha & Halpha & Hint).
  exists alpha. split_and!; try done.
  unfold to_rgba. rewrite (positive_not_le_zero _ Hpos).
  rewrite (hex_to_rgb_triplet _ _ Hcolour), rbind_ok. cbn beta iota.
  rewrite Hint, rbind_ok. reflexivity.
Qed.

Lemma C5_witness :
  (hex_triplet "#1F2A44" = Some (31, 42, 68) /\
   (0 <? 0.3)%float = true /\ (0.3 <=? 1)%float = true) /\
  exists alpha,
    Py.int_of_float (0.3 * 255 + 0.5)%float = Ok alpha /\ 0 <= alpha /\
    to_rgba (Some "#1F2A44") 0.3%float = Ok (31, 42, 68, Z.max 0 (Z.min alpha 255)).
Proof.
  split.
  - split_and!; reflexivity.
  - apply (C5_resolved_pixel "#1F2A44" 31 42 68 0.3%float); reflexivity.
Defined.

(** C5 as the specification words it fails twice. At opacity 0, which lies
    in [0, 1], the pixel is the sentinel, so its RGB channels are not those
    of the colour. And at opacity 0.3, an opacity of the catalogue, the
    product [0.3 * 255] is the float 76.5: [round] gives 76, the code gives
    77. *)
Lemma C5_counterexample :
  (hex_triplet "#FF0000" = Some (255, 0, 0) /\
   (0 <=? 0)%float = true /\ (0 <=? 1)%float = true /\
   to_rgba (Some "#FF0000") 0%float = Ok (0, 0, 0, 0)) /\
  (hex_triplet "#1F2A44" = Some (31, 42, 68) /\
   (0 <=? 0.3)%float = true /\ (0.3 <=? 1)%float = true /\
   spec_alpha 0.3%float = Some 76 /\
   to_rgba (Some "#1F2A44") 0.3%float = Ok (31, 42, 68, 77)).
Proof. split_and!; reflexivity. Qed.

(** ** Legends of the data model

    A legend whose colours are hex triplets and whose opacities lie in the
    unit interval always resolves, so the statements above that assume a
    resolved legend cover every such asset; the catalogue is one. *)

Lemma nonnegative_cases (opacity : float) :
  (0 <=? opacity)%float = true ->
  (opacity <=? 0)%float = true \/ (0 <? opacity)%float = true.
Proof.
  rewrite !leb_spec, ltb_spec. change (Prim2SF 0) with (S754_zero false).
  destruct (Prim2SF opacity) as [s|s| |s m e]; try discriminate;
    destruct s; try discriminate; auto.
Qed.

Lemma valid_entry_resolves (colour : option string) (opacity : float) :
  entry_valid (colour, opacity) = true -> exists pixel, to_rgba colour opacity = Ok pixel.
Proof.
  unfold entry_valid. intros Hvalid.
  apply andb_prop in Hvalid as [Hvalid Hle]. apply andb_prop in Hvalid as [Hcolour Hge].
  destruct colour as [c|]; [|eexists; reflexivity].
  destruct (nonnegative_cases opacity Hge) as [Hzero|Hpos].
  - exists TRANSPARENT_PIXEL. now apply to_rgba_nonpositive.
  - destruct (hex_triplet c) as [[[r g] b]|] eqn:Hc; [|discriminate].
    destruct (int_of_float_alpha opacity Hpos Hle) as (alpha & _ & Hint).
    exists (r, g, b, Z.max 0 (Z.min alpha 255)).
    unfold to_rgba. rewrite (positive_not_le_zero _ Hpos).
    rewrite (hex_to_rgb_triplet _ _ Hc), rbind_ok. cbn beta iota.
    rewrite Hint, rbind_ok. reflexivity.
Qed.

Lemma valid_legend_resolves (legend : list (string * LegendEntry)) :
  legend_valid legend = true -> exists resolved, normalise_legend legend = Ok resolved.
Proof.
  induction legend as [|[symbol [colour opacity]] rest IH]; intros Hvalid.
  - eexists; reflexivity.
  - cbn in Hvalid. apply andb_prop in Hvalid as [Hentry Hrest].
    destruct (valid_entry_resolves colour opacity Hentry) as [pixel Hpixel].
    destruct (IH Hrest) as [resolved Hresolved].
    exists ((symbol, pixel) :: resolved).
    cbn [normalise_legend]. rewrite Hpixel, rbind_ok, Hresolved, rbind_ok. reflexivity.
Qed.

Example catalogue_legends_valid :
  forallb (fun asset => legend_valid (legend asset)) ASSETS = true.
Proof. reflexivity. Qed.

(** * Further properties of the code *)

(** ** [hex_to_rgb] *)

(** X1: a leading hash does not change what a colour parses to; any number
    of hashes may precede the digits. *)
Theorem X1_leading_hash_ignored (s : string) (rgb : RGB) :
  hex_to_rgb (String "#" s) = Ok rgb <-> hex_to_rgb s = Ok rgb.
Proof.
  unfold hex_to_rgb. cbn [Py.lstrip Py.mem]. change (Ascii.eqb "#" "#") with true.
  cbn iota. destruct (bool_decide (Py.len (Py.lstrip "#" s) ≠ 6)); [|reflexivity].
  split; discriminate.
Qed.

Lemma pairs_in_range :
  forallb (fun hi => forallb (fun lo => pair_in_range hi lo) all_ascii) all_ascii = true.
Proof. vm_compute. reflexivity. Qed.

Lemma int16_pair_range (hi lo : ascii) (v : Z) :
  Py.int16 (String hi (String lo EmptyString)) = Ok v -> -15 <= v <= 255.
Proof.
  intros Hint. pose proof pairs_in_range as Hall.
  rewrite forallb_forall in Hall. specialize (Hall hi (all_ascii_complete hi)).
  rewrite forallb_forall in Hall. specialize (Hall lo (all_ascii_complete lo)).
  unfold pair_in_range in Hall. unfold Py.int16 in Hint.
  destruct (Py.parse16 _) as [w|]; [|discriminate].
  inversion Hint; subst. apply andb_prop in Hall as [Hlo Hhi]. lia.
Qed.

Lemma len_six (s : string) :
  Py.len s = 6 -> exists a b c d e f,
    s = String a (String b (String c (String d (String e (String f EmptyString))))).
Proof.
  unfold Py.len. intros Hlen.
  destruct s as [|a [|b [|c [|d [|e [|f [|g rest]]]]]]]; cbn in Hlen; try lia.
  now exists a, b, c, d, e, f.
Qed.

Lemma hex_to_rgb_accepted (s : string) (r g b : Z) :
  hex_to_rgb s = Ok (r, g, b) ->
  Py.len (Py.lstrip "#" s) = 6 /\
  -15 <= r <= 255 /\ -15 <= g <= 255 /\ -15 <= b <= 255.
Proof.
  unfold hex_to_rgb. intros Hrgb.
  destruct (bool_decide (Py.len (Py.lstrip "#" s) ≠ 6)) eqn:Elen; [discriminate|].
  apply bool_decide_eq_false in Elen.
  assert (Py.len (Py.lstrip "#" s) = 6) as Hlen by lia.
  split; [exact Hlen|].
  destruct (len_six _ Hlen) as (c1 & c2 & c3 & c4 & c5 & c6 & Hs).
  rewrite Hs in Hrgb. cbn [Py.slice substring] in Hrgb.
  apply rbind_inv_ok in Hrgb as (r' & Hr & Hrgb).
  apply rbind_inv_ok in Hrgb as (g' & Hg & Hrgb).
  apply rbind_inv_ok in Hrgb as (b' & Hb & Hrgb).
  inversion Hrgb; subst.
  split_and!; eapply int16_pair_range; eauto.
Qed.

(** X2: when a colour is accepted, what is left of it after the leading
    hashes has exactly six characters, and each channel lies between -15 and
    255: a channel is never above 255, but a signed digit makes it
    negative. *)
Theorem X2_accepted_colour_range (s : string) (r g b : Z) :
  hex_to_rgb s = Ok (r, g, b) ->
  Py.len (Py.lstrip "#" s) = 6 /\
  -15 <= r <= 255 /\ -15 <= g <= 255 /\ -15 <= b <= 255.
Proof. apply hex_to_rgb_accepted. Qed.

Lemma X2_witness :
  hex_to_rgb "#-fFf+0" = Ok (-15, 255, 0) /\
  Py.len (Py.lstrip "#" "#-fFf+0") = 6 /\
  -15 <= -15 <= 255 /\ -15 <= 255 <= 255 /\ -15 <= 0 <= 255.
Proof.
  split; [reflexivity|].
  apply (X2_accepted_colour_range "#-fFf+0" (-15) 255 0). reflexivity.
Defined.

(** X3: the error ["Unsupported colour value: <repr>"] is raised exactly for
    the colours that, once the leading hashes are stripped, do not have six
    characters; a colour of the right length that is refused is refused by
    [int] with another message. *)
Theorem X3_unsupported_iff_length (s : string) :
  hex_to_rgb s = Raise (ValueError ("Unsupported colour value: " +:+ Py.repr s)) <->
  Py.len (Py.lstrip "#" s) <> 6.
Proof.
  split; [|apply hex_to_rgb_bad_length].
  unfold hex_to_rgb. intros Hraise Hlen.
  rewrite bool_decide_eq_false_2 in Hraise by (intros Hne; now apply Hne).
  destruct (len_six _ Hlen) as (c1 & c2 & c3 & c4 & c5 & c6 & Hs).
  rewrite Hs in Hraise. cbn [Py.slice substring] in Hraise.
  unfold Py.int16 in Hraise.
  repeat match type of Hraise with
         | context [Py.parse16 ?t] => destruct (Py.parse16 t); cbn in Hraise
         end; discriminate.
Qed.

(** ** [to_rgba] *)

Lemma hex_to_rgb_raises_ValueError (s : string) (e : exception) :
  hex_to_rgb s = Raise e -> exists msg, e = ValueError msg.
Proof.
  unfold hex_to_rgb, Py.int16.
  destruct (bool_decide _); [intros H; inversion H; eauto|].
  repeat match goal with
         | |- context [Py.parse16 ?t] => destruct (Py.parse16 t); cbn
         end; intros H; inversion H; eauto.
Qed.

Lemma int_of_float_raises (x : float) (e : exception) :
  Py.int_of_float x = Raise e -> exists msg, e = ValueError msg \/ e = OverflowError msg.
Proof.
  unfold Py.int_of_float. destruct (Prim2SF x); intros H; inversion H; eauto.
Qed.

Lemma to_rgba_raises (colour : option string) (opacity : float) (e : exception) :
  to_rgba colour opacity = Raise e -> exists msg, e = ValueError msg \/ e = OverflowError msg.
Proof.
  unfold to_rgba. destruct colour as [c|]; [|discriminate].
  destruct (opacity <=? 0)%float; [discriminate|].
  destruct (hex_to_rgb c) as [[[r g] b]|e'] eqn:Hc; cbn.
  - destruct (Py.int_of_float _) as [a|e'] eqn:Ha; cbn; [discriminate|].
    intros H; inversion H; subst. eapply int_of_float_raises; eauto.
  - intros H; inversion H; subst.
    destruct (hex_to_rgb_raises_ValueError _ _ Hc) as [msg ->]. eauto.
Qed.

(** X4: every pixel that [to_rgba] returns has its alpha within 0 and 255
    and each colour channel within -15 and 255, whatever the colour text and
    the opacity. *)
Theorem X4_resolved_pixel_range (colour : option string) (opacity : float)
    (r g b a : Z) :
  to_rgba colour opacity = Ok (r, g, b, a) ->
  0 <= a <= 255 /\ -15 <= r <= 255 /\ -15 <= g <= 255 /\ -15 <= b <= 255.
Proof.
  unfold to_rgba. destruct colour as [c|]; [|intros H; inversion H; lia].
  destruct (opacity <=? 0)%float; [intros H; inversion H; lia|].
  destruct (hex_to_rgb c) as [[[r' g'] b']|e] eqn:Hc; cbn; [|discriminate].
  destruct (Py.int_of_float _) as [alpha|e]; cbn; [|discriminate].
  intros H; inversion H; subst.
  destruct (hex_to_rgb_accepted _ _ _ _ Hc) as (_ & Hr & Hg & Hb).
  split_and!; lia.
Qed.

Lemma X4_witness :
  to_rgba (Some "-f-f-f") 7.5%float = Ok (-15, -15, -15, 255) /\
  0 <= 255 <= 255 /\ -15 <= -15 <= 255 /\ -15 <= -15 <= 255 /\ -15 <= -15 <= 255.
Proof.
  split; [reflexivity|].
  apply (X4_resolved_pixel_range (Some "-f-f-f") 7.5%float (-15) (-15) (-15) 255).
  reflexivity.
Defined.

(** X5: an opacity that is not a number, or is infinite, passes the guard
    [opacity <= 0.0]. The colour is then parsed first, so its error wins;
    otherwise the conversion of the alpha to an integer raises [ValueError]
    for NaN and [OverflowError] for infinity. *)
Theorem X5_opacity_nan_or_infinite (c : string) :
  to_rgba (Some c) nan =
    match hex_to_rgb c with
    | Ok _ => Raise (ValueError "cannot convert float NaN to integer")
    | Raise e => Raise e
    end /\
  to_rgba (Some c) infinity =
    match hex_to_rgb c with
    | Ok _ => Raise (OverflowError "cannot convert float infinity to integer")
    | Raise e => Raise e
    end.
Proof.
  unfold to_rgba. change (nan <=? 0)%float with false. change (infinity <=? 0)%float with false.
  cbn iota. destruct (hex_to_rgb c) as [[[r g] b]|e]; cbn; split; reflexivity.
Qed.

(** *** Opacities of 1 and more

    Lower bounds through the rounding of binary64 products and sums. *)

Module Binary64Lower.
Import Binary64.

Lemma digits2_pos_lower (p : positive) : 2 ^ (Zpos (digits2_pos p) - 1) <= Zpos p.
Proof.
  induction p as [p IH|p IH|]; cbn [digits2_pos]; [| |cbn; lia].
  - rewrite Pos2Z.inj_succ, Pos2Z.inj_xI.
    replace (Z.succ (Z.pos (digits2_pos p)) - 1) with (1 + (Z.pos (digits2_pos p) - 1)) by lia.
    rewrite pow2_split by lia. change (2 ^ 1) with 2. lia.
  - rewrite Pos2Z.inj_succ, Pos2Z.inj_xO.
    replace (Z.succ (Z.pos (digits2_pos p)) - 1) with (1 + (Z.pos (digits2_pos p) - 1)) by lia.
    rewrite pow2_split by lia. change (2 ^ 1) with 2. lia.
Qed.

Lemma at_least_mono (m m' e c : Z) : m <= m' -> at_least m e c -> at_least m' e c.
Proof.
  unfold at_least. intros Hm H. pose proof (pow2_pos (Z.max 0 e)). nia.
Qed.

Lemma at_least_pos (m e c : Z) : 0 < c -> at_least m e c -> 0 < m.
Proof.
  unfold at_least. intros Hc H.
  pose proof (pow2_pos (Z.max 0 e)). pose proof (pow2_pos (Z.max 0 (- e))). nia.
Qed.

(** One truncation step keeps the value at or above a small integer. *)
Lemma shr_fexp_at_least (m e c : Z) (l : location) :
  0 < c < 2 ^ 52 -> 0 < m -> at_least m e c ->
  let '(mrs, e') := shr_fexp prec emax m e l in at_least (shr_m mrs) e' c.
Proof.
  intros Hc Hm Hge.
  pose proof (shr_fexp_spec m e l) as Hspec.
  destruct (shr_fexp prec emax m e l) as [mrs e'].
  destruct Hspec as [He' Hm']; [lia|]. rewrite fexp64 in He'.
  destruct (Z.eq_dec e' e) as [->|Hne].
  { rewrite Hm'. replace (e - e) with 0 by lia. cbn. now rewrite Z.div_1_r. }
  assert (e < e') as Hlt by lia.
  unfold at_least in *. rewrite Hm'.
  destruct (Z_le_gt_dec e' 0) as [Hneg|Hpos].
  - rewrite (Z.max_l 0 e'), (Z.max_r 0 (- e')) by lia.
    rewrite (Z.max_l 0 e), (Z.max_r 0 (- e)) in Hge by lia.
    change (2 ^ 0) with 1 in *. rewrite Z.mul_1_r in *.
    apply Z.div_le_lower_bound; [apply pow2_pos; lia|].
    replace (- e) with ((e' - e) + (- e')) in Hge by lia.
    rewrite pow2_split in Hge by lia. lia.
  - rewrite (Z.max_r 0 e'), (Z.max_l 0 (- e')) by lia.
    change (2 ^ 0) with 1. rewrite Z.mul_1_r.
    destruct m as [|p|p]; try lia. cbn [Zdigits2] in He'.
    assert (e' - e = Zpos (digits2_pos p) - 53) as Hn by lia.
    pose proof (digits2_pos_lower p) as Hlow.
    assert (2 ^ 52 <= Zpos p / 2 ^ (e' - e)) as Hbig.
    { apply Z.div_le_lower_bound; [apply pow2_pos; lia|].
      rewrite <- pow2_split by lia.
      replace (e' - e + 52) with (Zpos (digits2_pos p) - 1) by lia. exact Hlow. }
    pose proof (pow2_pos e'). assert (1 <= 2 ^ e') by lia. nia.
Qed.

Lemma binary_round_aux_at_least (s : bool) (m : positive) (e c : Z) (l : location) :
  0 < c < 2 ^ 52 -> at_least (Zpos m) e c ->
  match binary_round_aux prec emax s (Zpos m) e l with
  | S754_infinity s' => s' = s
  | S754_finite s' m' e' => s' = s /\ at_least (Zpos m') e' c
  | _ => False
  end.
Proof.
  intros Hc Hge. unfold binary_round_aux.
  pose proof (shr_fexp_at_least (Zpos m) e c l Hc ltac:(lia) Hge) as H1.
  destruct (shr_fexp prec emax (Z.pos m) e l) as [mrs1 e1].
  set (m2 := round_nearest_even (shr_m mrs1) (loc_of_shr_record mrs1)).
  pose proof (round_nearest_even_bounds (shr_m mrs1) (loc_of_shr_record mrs1)) as Hm2.
  fold m2 in Hm2.
  assert (at_least m2 e1 c) as H2 by (eapply at_least_mono; [|exact H1]; lia).
  pose proof (at_least_pos m2 e1 c ltac:(lia) H2) as Hm2pos.
  pose proof (shr_fexp_at_least m2 e1 c loc_Exact Hc Hm2pos H2) as H3.
  destruct (shr_fexp prec emax m2 e1 loc_Exact) as [mrs2 e2].
  pose proof (at_least_pos (shr_m mrs2) e2 c ltac:(lia) H3) as Hm3pos.
  destruct (shr_m mrs2) as [|m3|m3]; [lia| |lia].
  destruct (e2 <=? emax - prec); [split; [reflexivity|exact H3]|reflexivity].
Qed.

Lemma at_least_iff (m e c k : Z) :
  0 <= k -> 0 <= k + e -> at_least m e c <-> c * 2 ^ k <= m * 2 ^ (k + e).
Proof.
  intros Hk Hke. unfold at_least.
  remember (Z.max 0 (- e)) as k0 eqn:Hk0.
  replace (Z.max 0 e) with (k0 + e) by lia.
  replace k with ((k - k0) + k0) at 1 by lia.
  replace (k + e) with ((k - k0) + (k0 + e)) by lia.
  rewrite (pow2_split (k - k0) k0), (pow2_split (k - k0) (k0 + e)) by lia.
  pose proof (pow2_pos (k - k0) ltac:(lia)) as Hd. split; intros H; nia.
Qed.

Lemma at_least_scale (m e d c : Z) :
  0 <= d -> at_least m e c -> at_least (m * 2 ^ d) (e - d) c.
Proof.
  intros Hd H.
  remember (Z.max 0 (- e) + d) as k eqn:Hk.
  apply (at_least_iff _ _ _ k); [lia..|].
  apply (at_least_iff _ _ _ k) in H; [|lia..].
  replace (k + e) with (d + (k + (e - d))) in H by lia.
  rewrite pow2_split in H by lia. lia.
Qed.

Lemma binary_round_at_least (m : positive) (e c : Z) :
  0 < c < 2 ^ 52 -> at_least (Zpos m) e c ->
  match binary_round prec emax false m e with
  | S754_infinity s' => s' = false
  | S754_finite s' m' e' => s' = false /\ at_least (Zpos m') e' c
  | _ => False
  end.
Proof.
  intros Hc H. unfold binary_round.
  pose proof (shl_align_spec m e (fexp prec emax (Z.pos (digits2_pos m) + e))) as Hal.
  destruct (shl_align m e _) as [mz ez]. destruct Hal as [Hez Hmz].
  apply binary_round_aux_at_least; [done|].
  rewrite Hmz. replace ez with (e - (e - ez)) at 2 by lia.
  apply at_least_scale; [lia|done].
Qed.

Lemma at_least_one_shape (x : spec_float) :
  valid_binary x = true -> SFleb sf_one x = true ->
  x = S754_infinity false \/
  exists m e, x = S754_finite false m e /\ at_least (Zpos m) e 1.
Proof.
  intros Hvalid Hle.
  destruct x as [s|s| |s m e]; try discriminate.
  - destruct s; [discriminate|]. now left.
  - destruct s; [discriminate|]. right. exists m, e. split; [done|].
    cbn in Hvalid. unfold bounded, canonical_mantissa in Hvalid.
    apply andb_prop in Hvalid as [Hcanon _]. apply Z.eqb_eq in Hcanon.
    rewrite fexp64 in Hcanon.
    unfold sf_one in Hle. rewrite SFleb_finite in Hle.
    pose proof (digits2_pos_lower m) as Hlow.
    assert (-52 <= e /\ (e < 0 -> 2 ^ 52 <= Zpos m)) as [He Hm].
    { destruct (-52 ?= e) eqn:Ecmp; [| |discriminate].
      - apply Z.compare_eq in Ecmp. subst e. split; [lia|]. intros _.
        replace (Zpos (digits2_pos m) - 1) with 52 in Hlow by lia. done.
      - pose proof (proj1 (Z.compare_lt_iff _ _) Ecmp). split; [lia|]. intros Hneg.
        replace (Zpos (digits2_pos m) - 1) with 52 in Hlow by lia. done. }
    unfold at_least. destruct (Z_lt_le_dec e 0) as [Hneg|Hnn].
    + rewrite (Z.max_r 0 (- e)), (Z.max_l 0 e) by lia.
      change (2 ^ 0) with 1. specialize (Hm Hneg).
      assert (2 ^ (- e) <= 2 ^ 52) by (apply Z.pow_le_mono_r; lia). lia.
    + rewrite (Z.max_l 0 (- e)), (Z.max_r 0 e) by lia.
      change (2 ^ 0) with 1. pose proof (pow2_pos e Hnn). nia.
Qed.

Lemma product_at_least (m : positive) (e : Z) :
  at_least (Zpos m) e 1 -> at_least (Zpos (m * 8972014882652160)) (e + -45) 255.
Proof.
  intros H. rewrite Pos2Z.inj_mul.
  change (Zpos 8972014882652160) with (255 * 2 ^ 45).
  remember (Z.max 0 (- e) + 45) as k eqn:Hk.
  apply (at_least_iff _ _ _ k); [lia..|].
  apply (at_least_iff _ _ _ (k - 45)) in H; [|lia..].
  replace (k + (e + -45)) with (k - 45 + e) by lia.
  replace k with (45 + (k - 45)) at 1 by lia.
  rewrite pow2_split by lia.
  set (P := 2 ^ (k - 45)) in *. set (Q := 2 ^ (k - 45 + e)) in *.
  set (R := 2 ^ 45).
  assert (0 < R) by (apply pow2_pos; lia). nia.
Qed.

(** For an opacity of 1 or more the float [opacity * 255 + 0.5] is plus
    infinity or a finite float of value 255 or more. *)
Lemma alpha_sum_saturates (x : spec_float) :
  valid_binary x = true -> SFleb sf_one x = true ->
  match SF64add (SF64mul x sf_255) sf_half with
  | S754_infinity s => s = false
  | S754_finite s m e => s = false /\ at_least (Zpos m) e 255
  | _ => False
  end.
Proof.
  intros Hvalid Hle.
  destruct (at_least_one_shape x Hvalid Hle) as [->|(m & e & -> & Hm)]; [reflexivity|].
  unfold SF64mul, SFmul, sf_255. cbn [xorb].
  pose proof (binary_round_aux_at_least false (m * 8972014882652160) (e + -45) 255 loc_Exact
                ltac:(split; reflexivity) (product_at_least m e Hm)) as Hmul.
  destruct (binary_round_aux prec emax false _ _ _) as [sy|sy| |sy my ey];
    [done | subst sy; reflexivity | done |].
  destruct Hmul as (-> & Hmy).
  unfold SF64add, SFadd, sf_half. cbn [cond_Zopp].
  pose proof (shl_align_spec my ey (Z.min ey (-53))) as Ha.
  pose proof (shl_align_spec 4503599627370496 (-53) (Z.min ey (-53))) as Hb.
  destruct (shl_align my ey _) as [a ea]. destruct (shl_align 4503599627370496 _ _) as [b eb].
  destruct Ha as [Hea Ha]. destruct Hb as [Heb Hb]. cbn [fst].
  change (Z.pos a + Z.pos b) with (Z.pos (a + b)). cbn [binary_normalize].
  set (ez := Z.min ey (-53)) in *.
  apply binary_round_at_least; [split; reflexivity|].
  apply at_least_mono with (Zpos a); [lia|].
  rewrite Ha. replace ea with (Z.min ey ez) by lia.
  replace ez with (ey - (ey - Z.min ey ez)) at 2 by lia.
  apply at_least_scale; [lia|done].
Qed.

Lemma shiftl_at_least (m : positive) (e c : Z) :
  at_least (Zpos m) e c -> c <= Z.shiftl (Zpos m) e.
Proof.
  unfold at_least. intros H. destruct (Z_lt_le_dec e 0) as [Hneg|Hnn].
  - rewrite (Z.max_r 0 (- e)), (Z.max_l 0 e) in H by lia.
    change (2 ^ 0) with 1 in H.
    replace e with (- (- e)) by lia. rewrite Z.shiftl_opp_r, Z.shiftr_div_pow2 by lia.
    apply Z.div_le_lower_bound; [apply pow2_pos; lia|lia].
  - rewrite (Z.max_l 0 (- e)), (Z.max_r 0 e) in H by lia.
    change (2 ^ 0) with 1 in H. rewrite Z.shiftl_mul_pow2 by lia. lia.
Qed.

End Binary64Lower.

(** X17: for an opacity of 1 or more the alpha is saturated at 255 by the
    clamp, whatever the size of the opacity; the one exception is an
    opacity so large that [opacity * 255 + 0.5] is infinite, for which the
    conversion to an integer raises [OverflowError]. The colour is parsed
    first, so its error wins. *)
Theorem X17_opacity_of_one_or_more (colour : string) (opacity : float) :
  (1 <=? opacity)%float = true ->
  to_rgba (Some colour) opacity =
    ('(r, g, b) ← hex_to_rgb colour;
     if (opacity * 255 + 0.5 =? infinity)%float
     then Raise (OverflowError "cannot convert float infinity to integer")
     else Ok (r, g, b, 255)).
Proof.
  intros Hone. rewrite leb_spec in Hone. change (Prim2SF 1) with sf_one in Hone.
  pose proof (Binary64Lower.alpha_sum_saturates (Prim2SF opacity) (Prim2SF_valid opacity) Hone) as Hsum.
  assert ((opacity <=? 0)%float = false) as Hguard.
  { rewrite leb_spec.
    destruct (Binary64Lower.at_least_one_shape _ (Prim2SF_valid opacity) Hone) as [->|(m & e & -> & _)];
      reflexivity. }
  unfold to_rgba. rewrite Hguard.
  destruct (hex_to_rgb colour) as [[[r g] b]|err]; [|reflexivity].
  cbn [mbind result_bind rbind].
  unfold Py.int_of_float. rewrite FloatAxioms.eqb_spec, add_spec, mul_spec.
  change (Prim2SF 255) with sf_255. change (Prim2SF 0.5) with sf_half.
  destruct (SF64add _ _) as [s|s| |s m e]; try done.
  - subst s. reflexivity.
  - destruct Hsum as [-> Hm]. apply Binary64Lower.shiftl_at_least in Hm.
    cbn [cond_Zopp mbind result_bind rbind].
    change (SFeqb (S754_finite false m e) (Prim2SF infinity)) with false. cbv iota.
    do 2 f_equal. lia.
Qed.

Lemma X17_witness :
  (1 <=? 7.5)%float = true /\
  to_rgba (Some "#1F2A44") 7.5%float = Ok (31, 42, 68, 255).
Proof.
  split; [reflexivity|].
  rewrite (X17_opacity_of_one_or_more "#1F2A44" 7.5%float); reflexivity.
Defined.

Example opacity_overflow :
  to_rgba (Some "#1F2A44") 0x1p+1023%float =
  Raise (OverflowError "cannot convert float infinity to integer").
Proof. reflexivity. Qed.

(** ** [normalise_legend] *)

(** X6: the legend resolves exactly when every entry does; the resolved
    legend then lists the same symbols in the same order, each with the
    pixel of its own entry. *)
Theorem X6_normalise_entrywise (legend : list (string * LegendEntry))
    (resolved : list (string * RGBA)) :
  normalise_legend legend = Ok resolved <->
  Forall2 (fun item pixel => pixel.1 = item.1 /\ to_rgba item.2.1 item.2.2 = Ok pixel.2)
          legend resolved.
Proof.
  revert resolved. induction legend as [|[symbol [colour opacity]] rest IH]; intros resolved.
  - cbn. split.
    + intros H; inversion H. constructor.
    + intros H; inversion H. reflexivity.
  - cbn [normalise_legend]. split.
    + intros H. apply rbind_inv_ok in H as (pixel & Hpixel & H).
      apply rbind_inv_ok in H as (rest' & Hrest & H). inversion H; subst.
      constructor; [split; [reflexivity|exact Hpixel]|]. now apply IH.
    + intros H. inversion H as [|? [k p] ? resolved' [Hk Hp] Hrest]; subst.
      cbn in Hk, Hp. subst k. rewrite Hp, rbind_ok.
      apply IH in Hrest. rewrite Hrest, rbind_ok. reflexivity.
Qed.

(** X7: looking a symbol up after resolving the legend is resolving the
    entry found by looking it up before: the entries of other symbols
    never leak into a lookup. *)
Theorem X7_lookup_after_normalise (legend : list (string * LegendEntry))
    (resolved : list (string * RGBA)) (symbol : string) :
  normalise_legend legend = Ok resolved ->
  legend_get resolved symbol =
  (entry ← legend_entry legend symbol; returned (to_rgba entry.1 entry.2)).
Proof.
  revert resolved. induction legend as [|[k [colour opacity]] rest IH]; intros resolved Hnorm.
  - inversion Hnorm. reflexivity.
  - cbn [normalise_legend] in Hnorm.
    apply rbind_inv_ok in Hnorm as (pixel & Hpixel & Hnorm).
    apply rbind_inv_ok in Hnorm as (rest' & Hrest & Hnorm). inversion Hnorm; subst.
    cbn [legend_get legend_entry]. destruct (String.eqb k symbol).
    + cbn. now rewrite Hpixel.
    + now apply IH.
Qed.

Lemma X7_witness :
  normalise_legend (legend two_rows) = Ok two_rows_resolved /\
  legend_get two_rows_resolved "B" =
  (entry ← legend_entry (legend two_rows) "B"; returned (to_rgba entry.1 entry.2)).
Proof.
  split; [reflexivity|].
  apply (X7_lookup_after_normalise (legend two_rows) two_rows_resolved "B"). reflexivity.
Defined.

(** X8: resolution stops at the first entry that fails, in the order of the
    legend, and raises that entry's error; what follows it is not looked
    at. *)
Theorem X8_first_bad_entry_raises (before after : list (string * LegendEntry))
    (symbol : string) (colour : option string) (opacity : float) (e : exception) :
  Forall (fun item => is_Some (returned (to_rgba item.2.1 item.2.2))) before ->
  to_rgba colour opacity = Raise e ->
  normalise_legend (before ++ (symbol, (colour, opacity)) :: after) = Raise e.
Proof.
  intros Hbefore Hbad. induction Hbefore as [|[k [c o]] rest [p Hp] Hrest IH].
  - cbn. now rewrite Hbad.
  - cbn [app normalise_legend]. cbn in Hp.
    destruct (to_rgba c o) as [pixel|]; [|discriminate].
    rewrite rbind_ok, IH. reflexivity.
Qed.

Lemma X8_witness :
  (Forall (fun item => is_Some (returned (to_rgba item.2.1 item.2.2)))
          [(".", (None, 0.0%float))] /\
   to_rgba (Some "#12345") 1.0%float =
     Raise (ValueError "Unsupported colour value: '#12345'")) /\
  normalise_legend ([(".", (None, 0.0%float))] ++
                    ("A", (Some "#12345", 1.0%float)) :: [("B", (Some "zz", 1.0%float))]) =
  Raise (ValueError "Unsupported colour value: '#12345'").
Proof.
  assert (Forall (fun item : string * LegendEntry =>
                    is_Some (returned (to_rgba item.2.1 item.2.2)))
                 [(".", (None, 0.0%float))]) as Hbefore.
  { constructor; [eexists; reflexivity|constructor]. }
  split; [split; [exact Hbefore|reflexivity]|].
  apply (X8_first_bad_entry_raises [(".", (None, 0.0%float))]
           [("B", (Some "zz", 1.0%float))] "A" (Some "#12345") 1.0%float);
    [exact Hbefore|reflexivity].
Defined.

(** Pixels of a legend of the data model. *)
Lemma valid_entry_pixel (colour : option string) (opacity : float) (r g b a : Z) :
  entry_valid (colour, opacity) = true ->
  to_rgba colour opacity = Ok (r, g, b, a) ->
  0 <= r <= 255 /\ 0 <= g <= 255 /\ 0 <= b <= 255 /\ 0 <= a <= 255.
Proof.
  unfold entry_valid, to_rgba. intros Hvalid.
  apply andb_prop in Hvalid as [Hvalid _]. apply andb_prop in Hvalid as [Hcolour _].
  destruct colour as [c|]; [|intros H; inversion H; lia].
  destruct (opacity <=? 0)%float; [intros H; inversion H; lia|].
  destruct (hex_triplet c) as [[[r' g'] b']|] eqn:Hc; [|discriminate].
  rewrite (hex_to_rgb_triplet _ _ Hc), rbind_ok. cbn beta iota.
  destruct (Py.int_of_float _) as [alpha|e]; cbn; [|discriminate].
  intros H; inversion H; subst.
  destruct (hex_triplet_range _ _ _ _ Hc) as (Hr & Hg & Hb). split_and!; lia.
Qed.

(** X9: a legend of the data model, each colour absent or a hash-optional
    hex triplet and each opacity between 0 and 1, always resolves, and every
    channel of every resolved pixel lies between 0 and 255. *)
Theorem X9_valid_legend_resolves_in_range (legend : list (string * LegendEntry)) :
  legend_valid legend = true ->
  exists resolved,
    normalise_legend legend = Ok resolved /\
    Forall (fun item => let '(r, g, b, a) := item.2 in
                        0 <= r <= 255 /\ 0 <= g <= 255 /\ 0 <= b <= 255 /\ 0 <= a <= 255)
           resolved.
Proof.
  induction legend as [|[symbol [colour opacity]] rest IH]; intros Hvalid.
  - exists []. split; [reflexivity|constructor].
  - cbn in Hvalid. apply andb_prop in Hvalid as [Hentry Hrest].
    destruct (valid_entry_resolves colour opacity Hentry) as [[[[r g] b] a] Hpixel].
    destruct (IH Hrest) as (resolved & Hresolved & Hrange).
    exists ((symbol, (r, g, b, a)) :: resolved). split.
    + cbn [normalise_legend]. rewrite Hpixel, rbind_ok, Hresolved, rbind_ok. reflexivity.
    + constructor; [|exact Hrange]. cbn. eapply valid_entry_pixel; eauto.
Qed.

Lemma X9_witness :
  legend_valid (legend two_rows) = true /\
  exists resolved,
    normalise_legend (legend two_rows) = Ok resolved /\
    Forall (fun item => let '(r, g, b, a) := item.2 in
                        0 <= r <= 255 /\ 0 <= g <= 255 /\ 0 <= b <= 255 /\ 0 <= a <= 255)
           resolved.
Proof.
  split; [reflexivity|].
  apply (X9_valid_legend_resolves_in_range (legend two_rows)). reflexivity.
Defined.

(** ** [render_asset_grid] *)

Lemma normalise_legend_raises (legend : list (string * LegendEntry)) (e : exception) :
  normalise_legend legend = Raise e ->
  exists msg, e = ValueError msg \/ e = OverflowError msg.
Proof.
  induction legend as [|[symbol [colour opacity]] rest IH]; [discriminate|].
  cbn [normalise_legend].
  destruct (to_rgba colour opacity) as [pixel|e'] eqn:Hpixel; cbn.
  - destruct (normalise_legend rest) as [rest'|e'']; cbn; [discriminate|].
    intros H; inversion H; subst. now apply IH.
  - intros H; inversion H; subst. eapply to_rgba_raises; eauto.
Qed.

(** X10: every outcome of the rasteriser. An error of the legend comes
    first; then an empty grid raises [TypeError]; then the first undefined
    symbol raises [KeyError]; otherwise a well-formed square canvas of side
    at least 1 is returned. In particular no pixel is ever put outside the
    canvas: [IndexError] is never raised. *)
Theorem X10_render_outcomes (asset : AssetDefinition) :
  match normalise_legend (legend asset) with
  | Raise e => render_asset_grid asset = Raise e
  | Ok resolved =>
      match grid asset with
      | [] => render_asset_grid asset = Raise (TypeError "'int' object is not iterable")
      | _ :: _ =>
          match first_unknown_grid resolved (grid asset) with
          | Some c =>
              render_asset_grid asset =
              Raise (unknown_symbol (String c EmptyString) (slug asset) resolved)
          | None =>
              exists canvas,
                render_asset_grid asset = Ok canvas /\ Image_wf canvas /\
                1 <= xsize canvas /\ ysize canvas = xsize canvas
          end
      end
  end /\
  forall msg, render_asset_grid asset <> Raise (IndexError msg).
Proof.
  assert (match normalise_legend (legend asset) with
          | Raise e => render_asset_grid asset = Raise e
          | Ok resolved =>
              match grid asset with
              | [] => render_asset_grid asset = Raise (TypeError "'int' object is not iterable")
              | _ :: _ =>
                  match first_unknown_grid resolved (grid asset) with
                  | Some c =>
                      render_asset_grid asset =
                      Raise (unknown_symbol (String c EmptyString) (slug asset) resolved)
                  | None =>
                      exists canvas,
                        render_asset_grid asset = Ok canvas /\ Image_wf canvas /\
                        1 <= xsize canvas /\ ysize canvas = xsize canvas
                  end
              end
          end) as Hcases.
  { destruct (normalise_legend (legend asset)) as [resolved|e] eqn:Hnorm.
    - destruct (grid asset) as [|row rest] eqn:Hgrid.
      + unfold render_asset_grid. now rewrite Hnorm, Hgrid.
      + assert (grid asset <> []) as Hne by (rewrite Hgrid; discriminate).
        pose proof (render_asset_grid_spec asset resolved Hnorm Hne) as Hspec.
        cbn zeta in Hspec. rewrite Hgrid in Hspec.
        destruct (first_unknown_grid resolved (row :: rest)) as [c|]; [exact Hspec|].
        destruct Hspec as (canvas & Hrun & Hwf & Hx & Hy & _).
        exists canvas. split_and!; try done; [|congruence].
        rewrite Hx. unfold Py.len_list. cbn [List.length]. lia.
    - unfold render_asset_grid. now rewrite Hnorm. }
  split; [exact Hcases|].
  intros msg Hraise. rewrite Hraise in Hcases.
  destruct (normalise_legend (legend asset)) as [resolved|e] eqn:Hnorm.
  - destruct (grid asset) as [|row rest]; [discriminate|].
    destruct (first_unknown_grid resolved (row :: rest)).
    + unfold unknown_symbol in Hcases. discriminate.
    + destruct Hcases as (canvas & Hrun & _). discriminate.
  - inversion Hcases; subst.
    destruct (normalise_legend_raises _ _ Hnorm) as [m [Hm|Hm]]; discriminate.
Qed.

Lemma max_row_length_uniform (rows : list string) (n : Z) :
  rows <> [] -> Forall (fun row => Py.len row = n) rows -> max_row_length rows = n.
Proof.
  intros Hne Hrows. unfold max_row_length.
  induction Hrows as [|row rest Hrow Hrest IH]; [done|].
  cbn [map foldr]. destruct rest as [|row' rest'].
  - cbn. unfold Py.len in *. lia.
  - rewrite IH by discriminate. lia.
Qed.

(** X11: a square grid, as many rows as each row is long, is rasterised
    cell for cell: the canvas has the grid's side and its pixel [(c, r)] is
    the resolved pixel of the symbol at row [r], column [c], as an 8-bit
    raster stores it (each channel clipped to [0..255]). *)
Theorem X11_square_grid_identity (asset : AssetDefinition)
    (resolved : list (string * RGBA)) (n : Z) :
  normalise_legend (legend asset) = Ok resolved ->
  first_unknown_grid resolved (grid asset) = None ->
  grid asset <> [] -> Py.len_list (grid asset) = n ->
  Forall (fun row => Py.len row = n) (grid asset) ->
  exists canvas,
    render_asset_grid asset = Ok canvas /\ xsize canvas = n /\ ysize canvas = n /\
    forall (r : nat) (row : string) (c : nat) (symbol : ascii),
      grid asset !! r = Some row -> String.get c row = Some symbol ->
      getpixel canvas (Z.of_nat c, Z.of_nat r) =
      clip_pixel <$> legend_get resolved (String symbol EmptyString).
Proof.
  intros Hnorm Hknown Hne HR Hrows.
  pose proof (max_row_length_uniform _ _ Hne Hrows) as HC.
  pose proof (render_asset_grid_spec asset resolved Hnorm Hne) as Hspec.
  cbn zeta in Hspec. rewrite Hknown, HR, HC, Z.max_id, Z.sub_diag in Hspec.
  change (0 / 2) with 0 in Hspec.
  destruct Hspec as (canvas & Hrun & Hwf & Hx & Hy & Hpix).
  exists canvas. split_and!; try done.
  intros r row c symbol Hrow Hget.
  assert (row ∈ grid asset) as Hin by (eapply list_elem_of_lookup_2; eauto).
  destruct (first_unknown_grid_None _ _ Hknown row c symbol Hin Hget) as [pixel Hpixel].
  pose proof (get_Some_lt _ _ _ Hget) as Hc.
  apply lookup_lt_Some in Hrow as Hr.
  eapply Forall_forall in Hrows as Hlen; [|exact Hin]. cbn in Hlen.
  assert (Z.of_nat r < n) as Hr' by (rewrite <- HR; unfold Py.len_list; lia).
  rewrite Hpix by lia.
  pose proof (grid_overlay_cell resolved n 0 (grid asset) r c row symbol Hrow Hget) as Hcell.
  rewrite Hlen, Z.sub_diag in Hcell. change (0 / 2) with 0 in Hcell.
  rewrite !Z.add_0_l in Hcell. rewrite Hcell, Hpixel. reflexivity.
Qed.

Lemma X11_witness :
  (normalise_legend (legend two_by_two) = Ok two_rows_resolved /\
   first_unknown_grid two_rows_resolved (grid two_by_two) = None /\
   grid two_by_two <> [] /\ Py.len_list (grid two_by_two) = 2 /\
   Forall (fun row => Py.len row = 2) (grid two_by_two)) /\
  exists canvas,
    render_asset_grid two_by_two = Ok canvas /\ xsize canvas = 2 /\ ysize canvas = 2 /\
    forall (r : nat) (row : string) (c : nat) (symbol : ascii),
      grid two_by_two !! r = Some row -> String.get c row = Some symbol ->
      getpixel canvas (Z.of_nat c, Z.of_nat r) =
      clip_pixel <$> legend_get two_rows_resolved (String symbol EmptyString).
Proof.
  assert (Forall (fun row => Py.len row = 2) (grid two_by_two)) as Hrows
    by (repeat constructor).
  split.
  - split_and!; [reflexivity | reflexivity | discriminate | reflexivity | exact Hrows].
  - apply (X11_square_grid_identity two_by_two two_rows_resolved 2);
      [reflexivity | reflexivity | discriminate | reflexivity | exact Hrows].
Defined.

(** ** [export_asset] *)

Lemma io_bind_assoc {Path A B C} (m : io Path A) (k : A -> io Path B) (h : B -> io Path C) :
  (m ≫= k) ≫= h = m ≫= (fun a => k a ≫= h).
Proof.
  unfold mbind, io_mbind, io_bind. destruct m as [t [a|e]]; [|reflexivity].
  destruct (k a) as [t' [b|e]]; [|reflexivity].
  destruct (h b) as [t'' r]. now rewrite app_assoc.
Qed.

Lemma io_bind_nil {Path A B} (a : A) (k : A -> io Path B) : ([], Ok a) ≫= k = k a.
Proof. unfold mbind, io_mbind, io_bind. now destruct (k a). Qed.

Lemma io_ret_bind {Path A B} (a : A) (k : A -> io Path B) : mret a ≫= k = k a.
Proof. apply io_bind_nil. Qed.

Lemma for_each_map {Path A B} (f : A -> B) (xs : list A) (body : B -> io Path unit) :
  for_each (map f xs) body = for_each xs (fun x => body (f x)).
Proof. induction xs as [|x xs IH]; cbn; [done|]. now rewrite IH. Qed.

Lemma save_refused {Path} (save_error : Path -> option exception) (image : Image)
    (path : Path) (e : exception) :
  save_error path = Some e -> save save_error image path = ([], Raise e).
Proof. intros H. unfold save. now rewrite H. Qed.

(** Writing and confirming a list of files in an environment that may
    refuse some: the files before the first refused one are written and
    confirmed, and its error is raised. *)
Lemma for_each_write_any {Path A} (save_error : Path -> option exception) (xs : list A)
    (image : A -> Image) (path : A -> Path) (line : A -> string) :
  let run := for_each xs (fun x => _ ← save save_error (image x) (path x); print (line x)) in
  exists k : nat,
    fst run = flat_map (fun x => [Save (path x) (image x); Print (line x)]) (take k xs) /\
    Forall (fun x => save_error (path x) = None) (take k xs) /\
    match xs !! k with
    | None => snd run = Ok tt
    | Some x => exists e, save_error (path x) = Some e /\ snd run = Raise e
    end.
Proof.
  cbn zeta.
  set (body := fun x => _ ← save save_error (image x) (path x); print (line x)).
  induction xs as [|x xs IH].
  - exists O. cbn. split_and!; [done|constructor|done].
  - cbn [for_each].
    assert (body x = match save_error (path x) with
                     | Some e => ([], Raise e)
                     | None => ([Save (path x) (image x); Print (line x)], Ok tt)
                     end) as ->.
    { unfold body, save, print. now destruct (save_error (path x)). }
    destruct (save_error (path x)) as [e|] eqn:Hx.
    + exists O. rewrite io_bind_raise. cbn. split_and!; [done|constructor|eauto].
    + destruct IH as (k & Htrace & Hok & Hnext).
      exists (S k). rewrite io_bind_ok. cbn [fst snd app take flat_map lookup list_lookup].
      rewrite Htrace. split_and!; [done|now constructor|exact Hnext].
Qed.

Lemma export_asset_live_loop {Path : Type} (truediv : Path -> string -> Path)
    (path_str : Path -> string) (resize : Image -> Z * Z -> Image)
    (save_error : Path -> option exception) (asset : AssetDefinition) (base_image : Image)
    (sizes : list Z) (out : Path) (include_base : bool) :
  render_asset_grid asset = Ok base_image ->
  export_asset truediv path_str resize save_error asset sizes out include_base false =
  (for_each (export_targets resize asset base_image sizes include_base)
     (fun target => _ ← save save_error target.2 (truediv out target.1);
                    print ("Saved " +:+ path_str (truediv out target.1))))
  ≫= (fun _ => mret PyNone).
Proof.
  intros Hrender. unfold export_asset, lift, export_targets. rewrite Hrender, io_bind_nil.
  destruct include_base; cbn [app for_each].
  - rewrite for_each_map. cbn [fst snd]. now rewrite !io_bind_assoc.
  - rewrite for_each_map. cbn [fst snd]. now rewrite io_ret_bind.
Qed.

(** X12: a live export in any environment. The targets are written in
    export order, each followed by its ["Saved <path>"] line; at the first
    target whose write is refused the export raises that error, with the
    earlier files written and nothing after. So a confirmation is printed
    only for a file that was written, and for every such file. *)
Theorem X12_live_export_any_environment {Path : Type} (truediv : Path -> string -> Path)
    (path_str : Path -> string) (resize : Image -> Z * Z -> Image)
    (save_error : Path -> option exception) (asset : AssetDefinition) (base_image : Image)
    (sizes : list Z) (out : Path) (include_base : bool) :
  render_asset_grid asset = Ok base_image ->
  let run := export_asset truediv path_str resize save_error asset sizes out
               include_base false in
  let targets := export_targets resize asset base_image sizes include_base in
  (exists k : nat,
      fst run = flat_map (fun target => [Save (truediv out target.1) target.2;
                                         Print ("Saved " +:+ path_str (truediv out target.1))])
                         (take k targets) /\
      Forall (fun target => save_error (truediv out target.1) = None) (take k targets) /\
      match targets !! k with
      | None => snd run = Ok PyNone
      | Some target => exists e, save_error (truediv out target.1) = Some e /\ snd run = Raise e
      end) /\
  printed (fst run) = map (fun file => "Saved " +:+ path_str file.1) (saved (fst run)) /\
  created (fst run) = [].
Proof.
  intros Hrender run targets. subst run.
  rewrite (export_asset_live_loop _ _ _ _ _ base_image) by done. fold targets.
  destruct (for_each_write_any save_error targets snd
              (fun target => truediv out target.1)
              (fun target => "Saved " +:+ path_str (truediv out target.1)))
    as (k & Htrace & Hok & Hnext).
  cbn zeta in Htrace, Hnext.
  destruct (for_each targets _) as [t r] eqn:Erun. cbn [fst snd] in Htrace, Hnext. subst t.
  assert (forall xs : list (string * Image),
             printed (flat_map (fun target => [Save (truediv out target.1) target.2;
                        Print ("Saved " +:+ path_str (truediv out target.1))]) xs) =
             map (fun file : Path * Image => "Saved " +:+ path_str file.1)
                 (saved (flat_map (fun target => [Save (truediv out target.1) target.2;
                        Print ("Saved " +:+ path_str (truediv out target.1))]) xs))) as Hlines.
  { intros xs.
    rewrite (printed_saves _ (fun target => truediv out target.1) snd),
      (saved_saves _ (fun target => truediv out target.1) snd
         (fun target => "Saved " +:+ path_str (truediv out target.1))), map_map.
    reflexivity. }
  pose proof (created_saves (take k targets) (fun target => truediv out target.1) snd
                (fun target => "Saved " +:+ path_str (truediv out target.1))) as Hdirs.
  destruct r as [[]|e].
  - rewrite io_bind_ok. cbn [fst snd mret io_mret]. rewrite app_nil_r.
    split_and!; [|apply Hlines|exact Hdirs].
    exists k. split_and!; [done|done|].
    destruct (targets !! k) as [target|]; [|reflexivity].
    destruct Hnext as (e & _ & Hfalse). discriminate.
  - rewrite io_bind_raise. cbn [fst snd].
    split_and!; [|apply Hlines|exact Hdirs].
    exists k. split_and!; [done|done|].
    destruct (targets !! k) as [target|]; [|discriminate].
    destruct Hnext as (e' & He' & Heq). inversion Heq; subst. eauto.
Qed.

Lemma X12_witness :
  render_asset_grid one_pixel = Ok one_pixel_image /\
  let run := export_asset demo_join demo_str demo_resize demo_refuse_48 one_pixel
               [96; 48; 0; 48] "out" true false in
  let targets := export_targets demo_resize one_pixel one_pixel_image [96; 48; 0; 48] true in
  (exists k : nat,
      fst run = flat_map (fun target => [Save (demo_join "out" target.1) target.2;
                                         Print ("Saved " +:+ demo_str (demo_join "out" target.1))])
                         (take k targets) /\
      Forall (fun target => demo_refuse_48 (demo_join "out" target.1) = None) (take k targets) /\
      match targets !! k with
      | None => snd run = Ok PyNone
      | Some target =>
          exists e, demo_refuse_48 (demo_join "out" target.1) = Some e /\ snd run = Raise e
      end) /\
  printed (fst run) = map (fun file => "Saved " +:+ demo_str file.1) (saved (fst run)) /\
  created (fst run) = [].
Proof.
  split; [reflexivity|].
  apply (X12_live_export_any_environment demo_join demo_str demo_resize demo_refuse_48
           one_pixel one_pixel_image [96; 48; 0; 48] "out" true).
  reflexivity.
Defined.

Example export_refused_example :
  export_asset demo_join demo_str demo_resize demo_refuse_48 one_pixel
    [96; 48; 0; 48] "out" true false =
  ([Save "out/x_base.png" one_pixel_image; Print "Saved out/x_base.png"],
   Raise (OSError "No space left on device")).
Proof. reflexivity. Qed.

Lemma export_sizes_ext (sizes1 sizes2 : list Z) :
  (forall size, 0 < size -> (size ∈ sizes1 <-> size ∈ sizes2)) ->
  export_sizes sizes1 = export_sizes sizes2.
Proof.
  intros Hsame. unfold export_sizes. f_equal. f_equal.
  apply set_eq. intros size. rewrite !elem_of_list_to_set, !list_elem_of_filter.
  split; intros [Hpos Hin]; (split; [done|]); now apply (Hsame size Hpos).
Qed.

(** X13: only the set of positive sizes matters to an export: two size
    lists with the same positive members, in any order and with any
    repetition or non-positive entries, give the same run. *)
Theorem X13_sizes_as_a_set {Path : Type} (truediv : Path -> string -> Path)
    (path_str : Path -> string) (resize : Image -> Z * Z -> Image)
    (save_error : Path -> option exception) (asset : AssetDefinition)
    (sizes1 sizes2 : list Z) (out : Path) (include_base dry_run : bool) :
  (forall size, 0 < size -> (size ∈ sizes1 <-> size ∈ sizes2)) ->
  export_asset truediv path_str resize save_error asset sizes1 out include_base dry_run =
  export_asset truediv path_str resize save_error asset sizes2 out include_base dry_run.
Proof.
  intros Hsame. unfold export_asset. now rewrite (export_sizes_ext _ _ Hsame).
Qed.

Lemma X13_witness :
  (forall size, 0 < size -> (size ∈ [96; 48; 0; 48] <-> size ∈ [48; -1; 96])) /\
  export_asset demo_join demo_str demo_resize demo_ok one_pixel [96; 48; 0; 48] "out"
    true false =
  export_asset demo_join demo_str demo_resize demo_ok one_pixel [48; -1; 96] "out"
    true false.
Proof.
  assert (forall size, 0 < size -> (size ∈ [96; 48; 0; 48] <-> size ∈ [48; -1; 96]))
    as Hsame.
  { intros size Hpos. rewrite !elem_of_cons, !elem_of_nil. lia. }
  split; [exact Hsame|].
  apply (X13_sizes_as_a_set demo_join demo_str demo_resize demo_ok one_pixel
           [96; 48; 0; 48] [48; -1; 96] "out" true false Hsame).
Defined.

(** ** [main] *)



Lemma for_each_app {Path A} (xs ys : list A) (body : A -> io Path unit) :
  for_each (xs ++ ys) body = for_each xs body ≫= (fun _ => for_each ys body).
Proof.
  induction xs as [|x xs IH]; cbn [app for_each].
  - now rewrite io_ret_bind.
  - now rewrite IH, io_bind_assoc.
Qed.

Lemma io_bind_ret_fst {Path A B} (m : io Path A) (b : B) :
  fst (m ≫= (fun _ => mret b)) = fst m.
Proof.
  destruct m as [t [a|e]].
  - rewrite io_bind_ok. cbn [fst mret io_mret]. apply app_nil_r.
  - now rewrite io_bind_raise.
Qed.





Example mkdir_example :
  mkdir (fun _ => ["a"; "."]) (fun path => String.eqb path ".") (fun _ => None) "a/b" =
    ([Mkdir "a"; Mkdir "a/b"], Ok tt) /\
  mkdir (fun _ => ["a"; "."]) (fun _ => true) (fun _ => None) "a/b" = ([], Ok tt) /\
  mkdir (fun _ => ["a"; "."]) (fun path => String.eqb path ".")
        (fun path => if String.eqb path "a/b" then Some (OSError "Permission denied") else None)
        "a/b" =
    ([Mkdir "a"], Raise (OSError "Permission denied")).
Proof. split_and!; reflexivity. Qed.


(** X15: the catalogue is exported in order and the run stops at the first
    asset that fails to rasterise. If the run over the assets before it
    completes, the run over the whole catalogue emits exactly what that run
    emits and raises the asset's error; the assets after it are not
    touched. *)
Theorem X15_stops_at_failing_asset {Path : Type} (truediv : Path -> string -> Path)
    (path_str : Path -> string) (resize : Image -> Z * Z -> Image)
    (save_error : Path -> option exception) (parents : Path -> list Path)
    (is_dir : Path -> bool) (mkdir_error : Path -> option exception)
    (done_ later : list AssetDefinition) (bad : AssetDefinition) (e : exception)
    (args : Namespace Path) :
  snd (main truediv path_str resize save_error parents is_dir mkdir_error done_ args) = Ok PyNone ->
  render_asset_grid bad = Raise e ->
  main truediv path_str resize save_error parents is_dir mkdir_error (done_ ++ bad :: later) args =
  (fst (main truediv path_str resize save_error parents is_dir mkdir_error done_ args), Raise e).
Proof.
  unfold main. intros Hdone Hbad.
  destruct (if negb (dry_run args) then mkdir parents is_dir mkdir_error (output_dir args)
            else mret tt)
    as [t0 [[]|e0]]; [|discriminate].
  rewrite !io_bind_ok in *. cbn [fst snd] in *.
  rewrite for_each_app. cbn [for_each].
  rewrite (export_asset_raise _ _ _ _ _ _ _ _ _ e) by done. rewrite !io_bind_raise.
  destruct (for_each done_ _) as [t [[]|e1]].
  - rewrite !io_bind_ok. cbn [fst snd mret io_mret]. now rewrite !app_nil_r.
  - rewrite io_bind_raise in Hdone. discriminate.
Qed.

Lemma X15_witness :
  (snd (main demo_join demo_str demo_resize demo_ok demo_parents demo_is_dir demo_ok [one_pixel] demo_args) =
     Ok PyNone /\
   render_asset_grid stray_symbol =
     Raise (KeyError "Symbol 'Z' in x is not defined. Known symbols: A, B")) /\
  main demo_join demo_str demo_resize demo_ok demo_parents demo_is_dir demo_ok
    ([one_pixel] ++ stray_symbol :: [two_rows]) demo_args =
  (fst (main demo_join demo_str demo_resize demo_ok demo_parents demo_is_dir demo_ok [one_pixel] demo_args),
   Raise (KeyError "Symbol 'Z' in x is not defined. Known symbols: A, B")).
Proof.
  split; [split; reflexivity|].
  apply (X15_stops_at_failing_asset demo_join demo_str demo_resize demo_ok demo_parents demo_is_dir demo_ok
           [one_pixel] [two_rows] stray_symbol); reflexivity.
Defined.

Lemma export_asset_line_count {Path : Type} (truediv : Path -> string -> Path)
    (path_str : Path -> string) (resize : Image -> Z * Z -> Image)
    (save_error : Path -> option exception) (asset : AssetDefinition) (base_image : Image)
    (sizes : list Z) (out : Path) (include_base dry_run : bool) :
  render_asset_grid asset = Ok base_image ->
  (forall path, save_error path = None) ->
  let run := export_asset truediv path_str resize save_error asset sizes out
               include_base dry_run in
  let n := ((if include_base then 1 else 0) + length (export_sizes sizes))%nat in
  snd run = Ok PyNone /\ length (printed (fst run)) = n /\
  length (saved (fst run)) = (if dry_run then 0 else n)%nat.
Proof.
  intros Hrender Hok. cbn zeta.
  assert (length (export_targets resize asset base_image sizes include_base) =
          ((if include_base then 1 else 0) + length (export_sizes sizes))%nat) as Hcount.
  { unfold export_targets. rewrite length_app, length_map. now destruct include_base. }
  destruct dry_run.
  - rewrite (export_asset_dry _ _ _ _ _ base_image) by done. cbn [fst snd].
    rewrite printed_prints, saved_prints, length_map. split_and!; done.
  - rewrite (export_asset_live _ _ _ _ _ base_image) by done. cbn [fst snd].
    rewrite (printed_saves _ (fun target => truediv out target.1) snd),
      (saved_saves _ (fun target => truediv out target.1) snd
         (fun target => "Saved " +:+ path_str (truediv out target.1))), !length_map.
    split_and!; done.
Qed.

(** X16: when every asset of the catalogue rasterises and the environment
    refuses nothing, the run completes, returning [None]; for each asset it
    prints one line per target, the base if requested and each distinct
    positive size, and a live run writes as many files. The catalogue of
    the script is such a catalogue. *)
Theorem X16_complete_run {Path : Type} (truediv : Path -> string -> Path)
    (path_str : Path -> string) (resize : Image -> Z * Z -> Image)
    (save_error : Path -> option exception) (parents : Path -> list Path)
    (is_dir : Path -> bool) (mkdir_error : Path -> option exception)
    (assets : list AssetDefinition) (args : Namespace Path) :
  Forall (fun asset => is_Some (returned (render_asset_grid asset))) assets ->
  (forall path, save_error path = None) ->
  snd (mkdir parents is_dir mkdir_error (output_dir args)) = Ok tt ->
  let run := main truediv path_str resize save_error parents is_dir mkdir_error assets args in
  let n := (length assets *
            ((if include_base args then 1 else 0) + length (export_sizes (sizes args))))%nat in
  snd run = Ok PyNone /\ length (printed (fst run)) = n /\
  length (saved (fst run)) = (if dry_run args then 0 else n)%nat.
Proof.
  intros Hrender Hsave Hmkdir. cbn zeta. unfold main.
  set (body := fun asset => _ ← export_asset truediv path_str resize save_error asset
                 (sizes args) (output_dir args) (include_base args) (dry_run args); mret tt).
  set (per := ((if include_base args then 1 else 0) +
               length (export_sizes (sizes args)))%nat).
  assert (snd (for_each assets body) = Ok tt /\
          length (printed (fst (for_each assets body))) = (length assets * per)%nat /\
          length (saved (fst (for_each assets body))) =
            (if dry_run args then 0 else length assets * per)%nat) as Hloop.
  { induction Hrender as [|asset rest [base_image Hasset] Hrest IH].
    - cbn. now destruct (dry_run args).
    - cbn [for_each]. destruct (render_asset_grid asset) as [im|] eqn:Him; [|discriminate].
      destruct (export_asset_line_count truediv path_str resize save_error asset im
                  (sizes args) (output_dir args) (include_base args) (dry_run args)
                  Him Hsave) as (Hres & Hlines & Hfiles).
      fold per in Hlines, Hfiles.
      assert (exists t, body asset = (t, Ok tt) /\ length (printed t) = per /\
                length (saved t) = (if dry_run args then 0 else per)%nat)
        as (t & -> & Hlines' & Hfiles').
      { unfold body.
        destruct (export_asset _ _ _ _ _ _ _ _ _) as [t r]. cbn [fst snd] in *. subst r.
        exists t. rewrite io_bind_ok. cbn [fst snd mret io_mret]. now rewrite app_nil_r. }
      rewrite !io_bind_ok. cbn [fst snd].
      destruct IH as (IHres & IHlines & IHfiles).
      rewrite printed_app, saved_app, !length_app, Hlines', Hfiles', IHlines,
        IHfiles, IHres.
      split_and!; [done|cbn; lia|destruct (dry_run args); cbn; lia]. }
  destruct Hloop as (Hres & Hlines & Hfiles).
  destruct (for_each assets body) as [t r]. cbn [fst snd] in *. subst r.
  destruct (dry_run args); cbn [negb].
  - rewrite io_ret_bind, !io_bind_ok. cbn [fst snd mret io_mret].
    rewrite app_nil_r. split_and!; done.
  - pose proof (mkdir_parents_quiet is_dir mkdir_error
                  (output_dir args :: parents (output_dir args))) as [Hquiet_s Hquiet_p].
    fold (mkdir parents is_dir mkdir_error (output_dir args)) in Hquiet_s, Hquiet_p.
    destruct (mkdir parents is_dir mkdir_error (output_dir args)) as [tm rm].
    cbn [fst snd] in Hmkdir, Hquiet_s, Hquiet_p. subst rm.
    rewrite !io_bind_ok. cbn [fst snd mret io_mret].
    rewrite app_nil_r, printed_app, saved_app, Hquiet_s, Hquiet_p. split_and!; done.
Qed.

Lemma X16_witness :
  (Forall (fun asset => is_Some (returned (render_asset_grid asset))) ASSETS /\
   (forall path, demo_ok path = None) /\
   snd (mkdir demo_parents demo_is_dir demo_ok (output_dir demo_args)) = Ok tt) /\
  let run := main demo_join demo_str demo_resize demo_ok demo_parents demo_is_dir demo_ok ASSETS
               (set_dry_run false demo_args) in
  snd run = Ok PyNone /\ length (printed (fst run)) = 9%nat /\
  length (saved (fst run)) = 9%nat.
Proof.
  assert (Forall (fun asset => is_Some (returned (render_asset_grid asset))) ASSETS)
    as Hcatalogue.
  { repeat constructor; eexists; vm_compute; reflexivity. }
  split; [split_and!; [exact Hcatalogue|reflexivity|reflexivity]|].
  apply (X16_complete_run demo_join demo_str demo_resize demo_ok demo_parents demo_is_dir demo_ok ASSETS
           (set_dry_run false demo_args) Hcatalogue); reflexivity.
Defined.

(** ** File names *)

Lemma append_cons (c : ascii) (a b : string) : String c a +:+ b = String c (a +:+ b).
Proof. reflexivity. Qed.

Lemma append_nil (b : string) : EmptyString +:+ b = b.
Proof. reflexivity. Qed.

Lemma has_char_app (c : ascii) (a b : string) :
  has_char c (a +:+ b) = has_char c a || has_char c b.
Proof.
  induction a as [|c' a IH]; [done|].
  rewrite append_cons. cbn [has_char]. now rewrite IH, orb_assoc.
Qed.

(** A string is cut in one way only at the last occurrence of a character. *)
Lemma cut_at_last (c : ascii) (a1 a2 t1 t2 : string) :
  has_char c t1 = false -> has_char c t2 = false ->
  a1 +:+ String c t1 = a2 +:+ String c t2 -> a1 = a2 /\ t1 = t2.
Proof.
  intros H1 H2. revert a2.
  induction a1 as [|x a1 IH]; intros [|y a2] Heq;
    rewrite ?append_cons, ?append_nil in Heq.
  - now injection Heq.
  - injection Heq as _ ->. rewrite has_char_app in H1. cbn in H1.
    rewrite Ascii.eqb_refl, orb_true_r in H1. discriminate.
  - injection Heq as _ <-. rewrite has_char_app in H2. cbn in H2.
    rewrite Ascii.eqb_refl, orb_true_r in H2. discriminate.
  - injection Heq as -> Heq. destruct (IH a2 Heq) as [-> ->]. done.
Qed.

(** And at its first occurrence. *)
Lemma cut_at_first (c : ascii) (a1 a2 t1 t2 : string) :
  has_char c a1 = false -> has_char c a2 = false ->
  a1 +:+ String c t1 = a2 +:+ String c t2 -> a1 = a2 /\ t1 = t2.
Proof.
  revert a2.
  induction a1 as [|x a1 IH]; intros [|y a2] H1 H2 Heq;
    rewrite ?append_cons, ?append_nil in Heq; cbn [has_char] in *.
  - now injection Heq.
  - injection Heq as <- _. rewrite Ascii.eqb_refl in H2. discriminate.
  - injection Heq as -> _. rewrite Ascii.eqb_refl in H1. discriminate.
  - injection Heq as -> Heq.
    apply orb_false_elim in H1 as [_ H1]. apply orb_false_elim in H2 as [_ H2].
    destruct (IH a2 H1 H2 Heq) as [-> ->]. done.
Qed.

Lemma pretty_N_char_digit (d : N) : is_digit (pretty_N_char d) = true.
Proof. unfold pretty_N_char. repeat case_match; reflexivity. Qed.

Lemma pretty_N_go_chars (c : ascii) (x : N) (s : string) :
  is_digit c = false -> has_char c s = false -> has_char c (pretty_N_go x s) = false.
Proof.
  intros Hc. revert s. induction (N.lt_wf_0 x) as [x _ IH]. intros s Hs.
  destruct (decide (x = 0)%N) as [->|Hx]; [now rewrite pretty_N_go_0|].
  rewrite pretty_N_go_step by lia. apply IH.
  - apply N.div_lt; lia.
  - cbn. rewrite Hs, orb_false_r.
    pose proof (pretty_N_char_digit (x `mod` 10)) as Hd.
    destruct (Ascii.eqb_spec (pretty_N_char (x `mod` 10)) c) as [Heq|]; [|done].
    rewrite Heq in Hd. congruence.
Qed.

(** [str(n)] of a positive integer holds digits only. *)
Lemma str_chars (c : ascii) (n : Z) :
  0 < n -> is_digit c = false -> has_char c (Py.str n) = false.
Proof.
  intros Hn Hc. destruct n as [|p|p]; try lia.
  unfold Py.str, pretty, pretty_Z, pretty, pretty_positive, pretty, pretty_N.
  rewrite decide_False by done. now apply pretty_N_go_chars.
Qed.

Lemma str_inj (n1 n2 : Z) : Py.str n1 = Py.str n2 -> n1 = n2.
Proof. apply pretty_Z_inj. Qed.

Lemma png_chars (c : ascii) (n : Z) :
  0 < n -> is_digit c = false -> has_char c ".png" = false ->
  has_char c (Py.str n +:+ ".png") = false.
Proof. intros Hn Hd Hpng. now rewrite has_char_app, str_chars, Hpng. Qed.

(** Every file name of an asset is its slug, an underscore and a tail without
    underscore. *)
Lemma target_name_shape (asset : AssetDefinition) (sizes : list Z) (include_base : bool)
    (name : string) :
  name ∈ target_names asset sizes include_base ->
  exists tail, name = slug asset +:+ String "_" tail /\ has_char "_" tail = false.
Proof.
  unfold target_names. rewrite elem_of_app. intros [Hbase|Hsize].
  - destruct include_base; [|by apply elem_of_nil in Hbase].
    apply list_elem_of_singleton in Hbase as ->. now exists "base.png".
  - apply list_elem_of_In, in_map_iff in Hsize as (size & <- & Hin).
    apply list_elem_of_In, export_sizes_elem in Hin as [_ Hpos].
    exists (Py.str size +:+ ".png"). split; [reflexivity|]. now apply png_chars.
Qed.

Lemma export_sizes_NoDup (sizes : list Z) : NoDup (export_sizes sizes).
Proof.
  unfold export_sizes, sorted_int. rewrite merge_sort_Permutation. apply NoDup_elements.
Qed.

Lemma size_name_inj (prefix : string) (n1 n2 : Z) :
  0 < n1 -> 0 < n2 ->
  prefix +:+ "_" +:+ Py.str n1 +:+ ".png" = prefix +:+ "_" +:+ Py.str n2 +:+ ".png" ->
  n1 = n2.
Proof.
  intros H1 H2 Heq. apply String.app_inj in Heq. injection Heq as Heq.
  apply cut_at_first in Heq as [Heq _]; [|now apply str_chars..].
  now apply str_inj.
Qed.

(** The file names of one asset are pairwise distinct. *)
Lemma target_names_NoDup (asset : AssetDefinition) (sizes : list Z) (include_base : bool) :
  NoDup (target_names asset sizes include_base).
Proof.
  unfold target_names. apply NoDup_app. split_and!.
  - destruct include_base; [apply NoDup_singleton|apply NoDup_nil_2].
  - intros name Hbase Hsize.
    destruct include_base; [|by apply elem_of_nil in Hbase].
    apply list_elem_of_singleton in Hbase as ->.
    apply list_elem_of_In, in_map_iff in Hsize as (size & Heq & Hin).
    apply list_elem_of_In, export_sizes_elem in Hin as [_ Hpos].
    apply String.app_inj in Heq. injection Heq as Heq.
    assert (has_char "b" (Py.str size +:+ ".png") = false) as Hb by now apply png_chars.
    change (Py.str size +:+ ".png" = "base.png") in Heq. rewrite Heq in Hb. discriminate.
  - change (NoDup ((fun size => slug asset +:+ "_" +:+ Py.str size +:+ ".png")
                     <$> export_sizes sizes)).
    apply NoDup_fmap_2_strong; [|apply export_sizes_NoDup].
    intros n1 n2 H1 H2 Heq.
    apply export_sizes_elem in H1 as [_ H1]. apply export_sizes_elem in H2 as [_ H2].
    now apply (size_name_inj (slug asset)).
Qed.

(** The file names of assets with different slugs are disjoint. *)
Lemma target_names_slug (a b : AssetDefinition) (sizes : list Z) (include_base : bool)
    (name : string) :
  name ∈ target_names a sizes include_base -> name ∈ target_names b sizes include_base ->
  slug a = slug b.
Proof.
  intros Ha Hb.
  apply target_name_shape in Ha as (ta & -> & Hta).
  apply target_name_shape in Hb as (tb & Heq & Htb).
  now apply cut_at_last in Heq as [-> _].
Qed.

Lemma catalogue_names_NoDup (assets : list AssetDefinition) (sizes : list Z)
    (include_base : bool) :
  NoDup (map slug assets) ->
  NoDup (flat_map (fun asset => target_names asset sizes include_base) assets).
Proof.
  induction assets as [|a rest IH]; cbn [map flat_map]; intros Hslugs; [apply NoDup_nil_2|].
  apply NoDup_cons in Hslugs as [Hnotin Hrest].
  apply NoDup_app. split_and!; [apply target_names_NoDup| |now apply IH].
  intros name Ha Hin. apply list_elem_of_In, in_flat_map in Hin as (b & Hb & Hname).
  apply list_elem_of_In in Hname. apply Hnotin.
  rewrite (target_names_slug a b sizes include_base name Ha Hname).
  apply list_elem_of_In, in_map, Hb.
Qed.

Lemma export_targets_names (resize : Image -> Z * Z -> Image) (asset : AssetDefinition)
    (base_image : Image) (sizes : list Z) (include_base : bool) :
  map fst (export_targets resize asset base_image sizes include_base) =
  target_names asset sizes include_base.
Proof.
  unfold export_targets, target_names. rewrite map_app, map_map.
  now destruct include_base.
Qed.

(** The paths an export writes to are among the paths of its targets, in
    their order. *)
Lemma export_asset_saved_paths {Path : Type} (truediv : Path -> string -> Path)
    (path_str : Path -> string) (resize : Image -> Z * Z -> Image)
    (save_error : Path -> option exception) (asset : AssetDefinition)
    (sizes : list Z) (out : Path) (include_base dry_run : bool) :
  map fst (saved (fst (export_asset truediv path_str resize save_error asset sizes out
                         include_base dry_run)))
  `sublist_of` map (truediv out) (target_names asset sizes include_base).
Proof.
  destruct (render_asset_grid asset) as [base_image|e] eqn:Hrender.
  - destruct dry_run.
    + rewrite (export_asset_dry _ _ _ _ _ base_image) by done. cbn [fst].
      rewrite saved_prints. apply sublist_nil_l.
    + rewrite (export_asset_live_loop _ _ _ _ _ base_image) by done.
      rewrite io_bind_ret_fst.
      destruct (for_each_write_any save_error
                  (export_targets resize asset base_image sizes include_base) snd
                  (fun target => truediv out target.1)
                  (fun target => "Saved " +:+ path_str (truediv out target.1)))
        as (k & Htrace & _ & _).
      cbn zeta in Htrace. rewrite Htrace.
      rewrite (saved_saves _ (fun target => truediv out target.1) snd), map_map. cbn [fst].
      rewrite <- (export_targets_names resize asset base_image), map_map.
      change (map ?f ?l) with (f <$> l). apply fmap_sublist, sublist_take.
  - rewrite (export_asset_raise _ _ _ _ _ _ _ _ _ e) by done. apply sublist_nil_l.
Qed.

Lemma for_each_saved_paths {Path A} (xs : list A) (body : A -> io Path unit)
    (paths : A -> list Path) :
  (forall x, map fst (saved (fst (body x))) `sublist_of` paths x) ->
  map fst (saved (fst (for_each xs body))) `sublist_of` flat_map paths xs.
Proof.
  intros Hbody. induction xs as [|x xs IH]; [apply sublist_nil_l|].
  cbn [for_each flat_map]. specialize (Hbody x).
  destruct (body x) as [t [[]|e]]; cbn [fst] in Hbody.
  - rewrite io_bind_ok. cbn [fst]. rewrite saved_app, map_app. now apply sublist_app.
  - rewrite io_bind_raise. cbn [fst]. now apply sublist_inserts_r.
Qed.

Lemma flat_map_map {A B C} (f : B -> C) (g : A -> list B) (xs : list A) :
  flat_map (fun x => map f (g x)) xs = map f (flat_map g xs).
Proof. induction xs as [|x xs IH]; cbn; [done|]. now rewrite map_app, IH. Qed.

(** X18: no file is written twice. When the slugs of the catalogue are
    pairwise distinct and the join [output_dir / name] gives different paths
    for the different file names of the run, the paths written in one run
    are pairwise distinct, in any environment and whether the run completes
    or fails: the names [<slug>_base.png] and [<slug>_<size>.png] determine
    the slug and the size, so the names of the run are themselves pairwise
    distinct. *)
Theorem X18_no_file_written_twice {Path : Type} (truediv : Path -> string -> Path)
    (path_str : Path -> string) (resize : Image -> Z * Z -> Image)
    (save_error : Path -> option exception) (parents : Path -> list Path)
    (is_dir : Path -> bool) (mkdir_error : Path -> option exception)
    (assets : list AssetDefinition) (args : Namespace Path) :
  let names := flat_map (fun asset => target_names asset (sizes args) (include_base args))
                        assets in
  (forall a b, a ∈ names -> b ∈ names ->
               truediv (output_dir args) a = truediv (output_dir args) b -> a = b) ->
  NoDup (map slug assets) ->
  NoDup names /\
  NoDup (map fst (saved (fst (main truediv path_str resize save_error parents is_dir
                                mkdir_error assets args)))).
Proof.
  intros names Hjoin Hslugs.
  pose proof (catalogue_names_NoDup assets (sizes args) (include_base args) Hslugs) as Hnames.
  fold names in Hnames. split; [exact Hnames|].
  apply (NoDup_fmap_2_strong (truediv (output_dir args))) in Hnames; [|exact Hjoin].
  eapply sublist_NoDup; [exact Hnames|].
  change (?f <$> ?l) with (map f l). subst names. rewrite <- flat_map_map.
  unfold main.
  set (body := fun asset => _ ← export_asset truediv path_str resize save_error asset
                 (sizes args) (output_dir args) (include_base args) (dry_run args); mret tt).
  assert (map fst (saved (fst (for_each assets body))) `sublist_of`
          flat_map (fun asset => map (truediv (output_dir args))
                                   (target_names asset (sizes args) (include_base args)))
                   assets) as Hloop.
  { apply for_each_saved_paths. intros asset. unfold body. rewrite io_bind_ret_fst.
    apply export_asset_saved_paths. }
  destruct (dry_run args); cbn [negb].
  - now rewrite io_ret_bind, io_bind_ret_fst.
  - pose proof (mkdir_parents_quiet is_dir mkdir_error
                  (output_dir args :: parents (output_dir args))) as [Hquiet _].
    fold (mkdir parents is_dir mkdir_error (output_dir args)) in Hquiet.
    destruct (mkdir parents is_dir mkdir_error (output_dir args)) as [tm [[]|e]];
      cbn [fst] in Hquiet.
    + rewrite io_bind_ok. cbn [fst]. now rewrite saved_app, Hquiet, io_bind_ret_fst.
    + rewrite io_bind_raise. cbn [fst]. rewrite Hquiet. apply sublist_nil_l.
Qed.

Lemma X18_witness :
  NoDup (map slug ASSETS) /\
  NoDup (map fst (saved (fst (main demo_join demo_str demo_resize demo_refuse_48
                                demo_parents demo_is_dir demo_ok
                                ASSETS (set_dry_run false demo_args))))).
Proof.
  assert (NoDup (map slug ASSETS)) as Hslugs.
  { apply (bool_decide_unpack (NoDup (map slug ASSETS))). vm_compute. exact I. }
  split; [exact Hslugs|].
  apply (X18_no_file_written_twice demo_join demo_str demo_resize demo_refuse_48
           demo_parents demo_is_dir demo_ok ASSETS (set_dry_run false demo_args));
    [|exact Hslugs].
  intros a b _ _ Heq. unfold demo_join in Heq. do 2 apply String.app_inj in Heq. exact Heq.
Defined.
